(** * mongoose-elasticsearch-xp: the plugin entry point, index.js

    A shallow embedding of the plugin's [index.js]: option resolution
    ([esOptions]), the retryable single-document delete ([deleteByMongoId],
    [removeDoc]), the persistence hooks ([postSave], [postRemove]) and the
    streaming synchronization controller ([synchronize]).

    JavaScript objects with a fixed set of fields are records, objects
    created by [new] live in a heap keyed by address, asynchronous calls
    are logged as actions and their completions are delivered by explicit
    reply functions. *)

From Stdlib Require Import ZArith String List Lia.
From stdpp Require Import gmap strings list.
From Equations Require Import Equations.

Set Default Proof Using "Type".

(** ** JavaScript primitives used by index.js *)

Module Js.

(** [s.indexOf(pat)]: position of the first occurrence of [pat] in [s],
    [-1] when there is none. [pos] is the offset of [s] in the string the
    search started from. *)
Fixpoint indexOfFrom (pos : Z) (pat s : string) : Z :=
  if String.prefix pat s then pos
  else match s with
       | EmptyString => (-1)%Z
       | String _ s' => indexOfFrom (pos + 1)%Z pat s'
       end.

Definition indexOf (s pat : string) : Z := indexOfFrom 0%Z pat s.

(** Truthiness of a possibly undefined string: [undefined] and [''] are
    falsy. *)
Definition truthy_string (o : option string) : bool :=
  match o with
  | Some EmptyString | None => false
  | Some _ => true
  end.

(** Truthiness of a possibly undefined number: [undefined] and [0] are
    falsy. *)
Definition truthy_number (o : option Z) : bool :=
  match o with
  | Some z => negb (z =? 0)%Z
  | None => false
  end.

(** [s] has [pat] somewhere inside. *)
Definition contains (s pat : string) : Prop :=
  exists pre post : string, s = (pre +:+ pat +:+ post)%string.

End Js.

(** ** Data *)

(** Serialized JSON text: schema descriptions, mapping properties, bodies
    sent to the index engine and its responses. *)
Definition Json : Type := string.

(** Address of an object created at run time (a client, a [Bulker]). *)
Definition addr : Type := nat.

(** An error object handed to a node-style callback. *)
Record EsError : Type := { message : string }.

(** A mongoose document: [doc._id.toString()] and the rest of its fields. *)
Record Document : Type := { doc_id : string; doc_fields : Json }.

(** [options.bulk]: only [batch] is read by index.js. *)
Record BulkCfg : Type := { batch : option Z }.

(** [options.mapping]: [{properties: ...}]. *)
Record Mapping : Type := { properties : Json }.

(** The plugin's [options] object; an absent field is [None]. *)
Record Options : Type := {
  o_index : option string;
  o_type : option string;
  o_client : option addr;
  o_bulk : option BulkCfg;
  o_bulker : option addr;
  o_mapping : option Mapping
}.

(** What a model exposes to a static function through [this]. *)
Record Model : Type := {
  collection_name : string;   (* this.collection.name *)
  modelName : string;         (* this.modelName *)
  schema : Json               (* this.schema *)
}.

(** The receiver of [esOptions]: a model ([Model.esOptions()]), or the
    bare [schema.statics] object ([this.schema.statics.esOptions()]), which
    has neither [collection], [modelName] nor [schema]. *)
Inductive Receiver : Type :=
| OnModel (m : Model)
| OnStatics.

Inductive Obj : Type :=
| ClientObj
| BulkerObj (client : option addr) (cfg : option BulkCfg).

Inductive Exn : Type :=
| TypeError (msg : string)
| Raised (msg : string).

(** An entry of a bulk request: the header
    [{index: {_index, _type, _id}}] and the serialized body. *)
Inductive OpKind : Type := OpIndex | OpDelete.

Record Operation : Type := {
  op_kind : OpKind;
  op_index : option string;
  op_type : option string;
  op_id : string;
  op_body : Json
}.

(** What [schema.emit] announces during a synchronization. *)
Inductive Notification : Type :=
| EsBulkData (doc : Document)
| EsBulkSent (len : nat)
| EsBulkError (err : EsError).

(** The two listeners [synchronize] registers on the bulker. *)
Inductive Listener : Type := OnError | OnSent.

(** Calls and notifications, in the order they are made. *)
Inductive Action : Type :=
| ClientIndex (client : option addr) (index type : option string)
              (id : string) (body : Json)
| ClientDelete (client : option addr) (index type : option string)
               (id : string)
| ClientBulk (batch : list Operation)
| ClientRefresh (index : option string)
| SetTimeout (ms : Z)
| DocEmit (doc : Document) (event : string)
          (err : option EsError) (res : option Json)
| SchemaEmit (n : Notification)
| Settle (err : option EsError) (res : option Json)
| Find (conditions : Json) (projection options : option Json)
       (batchSize : Z)
| BulkerOn (bulker : addr) (l : Listener)
| BulkerRemoveListener (l : Listener)
| BulkerPush (op : Operation)
| BulkerFlush
| StreamPause
| StreamResume.

(** The optional node-style callback given to a document operation. *)
Inductive Callback : Type :=
| UserCallback (k : option EsError -> option Json -> list Action)
| NoCallback.

(** Modelled from the spec: lib/utils.js is absent. [utils.defer(callback)]
    yields the node-style [defer.callback]: with a user callback it passes
    the outcome on to it, without one it resolves or rejects the returned
    promise with the outcome. *)
Definition defer_callback (callback : Callback)
    (err : option EsError) (res : option Json) : list Action :=
  match callback with
  | UserCallback k => k err res
  | NoCallback => [Settle err res]
  end.

(** ** State and exceptions *)

Record World : Type := {
  options : Options;          (* the closure variable [options] *)
  heap : gmap addr Obj;       (* objects created so far *)
  log : list Action           (* calls made so far, oldest first *)
}.

Inductive Res (A : Type) : Type :=
| Ok (a : A)
| Throw (e : Exn).
Arguments Ok {A} a.
Arguments Throw {A} e.

Definition M (A : Type) : Type := World -> Res A * World.

#[export] Instance M_ret : MRet M := fun A a w => (Ok a, w).

#[export] Instance M_bind : MBind M := fun A B f m w =>
  match m w with
  | (Ok a, w') => f a w'
  | (Throw e, w') => (Throw e, w')
  end.

Definition throw {A : Type} (e : Exn) : M A := fun w => (Throw e, w).

Definition lift {A : Type} (r : Res A) : M A := fun w => (r, w).

Definition get_options : M Options := fun w => (Ok (options w), w).

Definition set_options (o : Options) : M unit := fun w =>
  (Ok tt, {| options := o; heap := heap w; log := log w |}).

(** [new C(...)]: a fresh address holding the object. *)
Definition new (obj : Obj) : M addr := fun w =>
  let a := fresh (dom (heap w)) in
  (Ok a, {| options := options w; heap := <[a := obj]> (heap w);
            log := log w |}).

Definition perform (acts : list Action) : M unit := fun w =>
  (Ok tt, {| options := options w; heap := heap w; log := log w ++ acts |}).

Definition when (b : bool) (m : M unit) : M unit :=
  if b then m else mret tt.

Definition with_index (v : string) (o : Options) : Options :=
  {| o_index := Some v; o_type := o_type o; o_client := o_client o;
     o_bulk := o_bulk o; o_bulker := o_bulker o; o_mapping := o_mapping o |}.

Definition with_type (v : string) (o : Options) : Options :=
  {| o_index := o_index o; o_type := Some v; o_client := o_client o;
     o_bulk := o_bulk o; o_bulker := o_bulker o; o_mapping := o_mapping o |}.

Definition with_client (v : addr) (o : Options) : Options :=
  {| o_index := o_index o; o_type := o_type o; o_client := Some v;
     o_bulk := o_bulk o; o_bulker := o_bulker o; o_mapping := o_mapping o |}.

Definition with_bulker (v : addr) (o : Options) : Options :=
  {| o_index := o_index o; o_type := o_type o; o_client := o_client o;
     o_bulk := o_bulk o; o_bulker := Some v; o_mapping := o_mapping o |}.

Definition with_mapping (v : Mapping) (o : Options) : Options :=
  {| o_index := o_index o; o_type := o_type o; o_client := o_client o;
     o_bulk := o_bulk o; o_bulker := o_bulker o; o_mapping := Some v |}.

(** [utils.highClone]: a copy of the top level; the fields still refer to
    the same client and bulker objects. *)
Definition highClone (o : Options) : Options := o.

(** [this.collection.name] *)
Definition this_collection_name (this : Receiver) : M string :=
  match this with
  | OnModel m => mret (collection_name m)
  | OnStatics => throw (TypeError "Cannot read property 'name' of undefined")
  end.

Definition this_modelName (this : Receiver) : option string :=
  match this with
  | OnModel m => Some (modelName m)
  | OnStatics => None
  end.

Definition this_schema (this : Receiver) : option Json :=
  match this with
  | OnModel m => Some (schema m)
  | OnStatics => None
  end.

(** [err && err.message.indexOf('404') > -1] *)
Definition notFound (err : EsError) : bool :=
  (Js.indexOf (message err) "404" >? -1)%Z.

(** ** The bulk queue

    What [synchronize] calls on its [bulker]. A call may hand batches to the
    client's [bulk]; they are returned next to the result. *)
Class BulkQueue (Q : Type) : Type := {
  push : Operation -> Q -> bool * Q * list (list Operation);
  flush : Q -> Q * list (list Operation);
  filled : Q -> bool
}.

(** What the queue announces when a bulk call completes. *)
Inductive QueueEvent : Type :=
| Sent (count : nat)
| Error (err : EsError).

(** Modelled from the spec: lib/bulker.js is absent. The Bulk Queue state
    is the pending batch and the dispatch in flight (kept with its batch,
    whose length [sent] reports); full batches that wait for the in-flight
    dispatch to complete are kept in [waiting], so that the size bound
    applies to the pending batch also while another batch is in flight. *)
Record Bulker : Type := {
  size : nat;
  pending : list Operation;
  waiting : list (list Operation);
  inFlight : option (list Operation)
}.

(** Modelled from the spec: the bound is the configured maximum size,
    50 operations if unspecified. *)
Definition Bulker_new (cfg : option BulkCfg) : Bulker :=
  {| size := match cfg with
             | Some {| batch := Some b |} =>
                 if (0 <? b)%Z then Z.to_nat b else 50
             | _ => 50
             end;
     pending := []; waiting := []; inFlight := None |}.

(** Modelled from the spec: the queue begins the dispatch of a batch
    unless a dispatch is already in flight, in which case the batch waits
    until the in-flight dispatch completes. *)
Definition Bulker_dispatch (b : list Operation) (q : Bulker)
    : Bulker * list (list Operation) :=
  match inFlight q with
  | None =>
      ({| size := size q; pending := []; waiting := waiting q;
          inFlight := Some b |}, [b])
  | Some _ =>
      ({| size := size q; pending := []; waiting := waiting q ++ [b];
          inFlight := inFlight q |}, [])
  end.

(** Modelled from the spec: [push(operation) -> accepted] appends the
    operation to the pending batch; it returns [false] when, after
    appending, the pending batch has reached its size bound, and the batch
    is then dispatched; it returns [true] otherwise. *)
Definition Bulker_push (op : Operation) (q : Bulker)
    : bool * Bulker * list (list Operation) :=
  let p := pending q ++ [op] in
  if (size q <=? length p)%nat
  then let (q', out) := Bulker_dispatch p q in (false, q', out)
  else (true,
        {| size := size q; pending := p; waiting := waiting q;
           inFlight := inFlight q |}, []).

(** Modelled from the spec: [flush()] forces the dispatch of the pending
    batch even if below the size bound, and does nothing when there is
    nothing pending. *)
Definition Bulker_flush (q : Bulker) : Bulker * list (list Operation) :=
  match pending q with
  | [] => (q, [])
  | p => Bulker_dispatch p q
  end.

(** Modelled from the spec: [filled()] is true iff the pending batch is
    non-empty. *)
Definition Bulker_filled (q : Bulker) : bool :=
  match pending q with
  | [] => false
  | _ => true
  end.

(** Modelled from the spec: when the bulk call of the batch in flight
    completes, the queue emits [sent(count)] with the number of operations
    in that batch, or [error(err)] if the call failed. *)
Definition Bulker_complete (err : option EsError) (q : Bulker)
    : Bulker * option QueueEvent :=
  match inFlight q with
  | None => (q, None)
  | Some b =>
      ({| size := size q; pending := pending q; waiting := waiting q;
          inFlight := None |},
       Some match err with
            | None => Sent (length b)
            | Some e => Error e
            end)
  end.

(** Modelled from the spec: a batch that waited is dispatched once nothing
    is in flight. *)
Definition Bulker_next (q : Bulker) : Bulker * list (list Operation) :=
  match inFlight q, waiting q with
  | None, b :: bs =>
      ({| size := size q; pending := pending q; waiting := bs;
          inFlight := Some b |}, [b])
  | _, _ => (q, [])
  end.

(** The queue with [push] answering [accepted], as the spec words it. *)
Definition accepted_queue : BulkQueue Bulker :=
  {| push := Bulker_push; flush := Bulker_flush; filled := Bulker_filled |}.

(** The same queue with [push] answering [sending]: [true] exactly when
    the pushed operation filled the batch and its dispatch was begun, the
    reading under which index.js names the result of [bulker.push]. *)
Definition sending_queue : BulkQueue Bulker :=
  {| push := fun op q =>
       let '(accepted, q', out) := Bulker_push op q in
       (negb accepted, q', out);
     flush := Bulker_flush; filled := Bulker_filled |}.

(** ** The state of one synchronization *)

Record Sync (Q : Type) : Type := {
  sy_options : Options;     (* esOptions, the clone taken at the start *)
  bulker : Q;
  streamClosed : bool;
  onError_on : bool;        (* onError is registered on the bulker *)
  onSent_on : bool;         (* onSent is registered on the bulker *)
  paused : bool;            (* the stream does not emit records *)
  acts : list Action        (* calls made so far, oldest first *)
}.
Arguments sy_options {Q} _.
Arguments bulker {Q} _.
Arguments streamClosed {Q} _.
Arguments onError_on {Q} _.
Arguments onSent_on {Q} _.
Arguments paused {Q} _.
Arguments acts {Q} _.

Definition St (Q A : Type) : Type := Sync Q -> A * Sync Q.

#[export] Instance St_ret (Q : Type) : MRet (St Q) := fun A a s => (a, s).

#[export] Instance St_bind (Q : Type) : MBind (St Q) := fun A B f m s =>
  let (a, s') := m s in f a s'.

Definition exec {Q A : Type} (m : St Q A) (s : Sync Q) : Sync Q := snd (m s).

(** What is delivered to the handlers of a synchronization. *)
Inductive Event : Type :=
| StreamData (doc : Document)
| StreamClose
| BulkerSent (len : nat)
| BulkerError (err : EsError)
| Refreshed (err : option EsError) (res : option Json).

(** The queue's own events. *)
Definition is_queue_event (ev : Event) : bool :=
  match ev with BulkerSent _ | BulkerError _ => true | _ => false end.

Definition is_StreamClose (ev : Event) : bool :=
  match ev with StreamClose => true | _ => false end.

Definition is_StreamData (ev : Event) : bool :=
  match ev with StreamData _ => true | _ => false end.

(** The events of the stream. *)
Definition is_stream_event (ev : Event) : bool :=
  match ev with StreamData _ | StreamClose => true | _ => false end.

(** What the answer to the refresh call settles. *)
Definition settled_by (ev : Event) : list (option EsError * option Json) :=
  match ev with Refreshed err res => [(err, res)] | _ => [] end.

(** The outcomes settled in a trace, oldest first. *)
Fixpoint settles (l : list Action)
    : list (option EsError * option Json) :=
  match l with
  | [] => []
  | Settle err res :: l' => (err, res) :: settles l'
  | _ :: l' => settles l'
  end.

(** What [finalize] does: both listeners are removed, the index is
    refreshed. *)
Definition finalize_calls (esOptions : Options) : list Action :=
  [BulkerRemoveListener OnError; BulkerRemoveListener OnSent;
   ClientRefresh (o_index esOptions)].

(** The number of refresh calls in a trace. *)
Fixpoint refreshes (l : list Action) : nat :=
  match l with
  | [] => 0
  | ClientRefresh _ :: l' => S (refreshes l')
  | _ :: l' => refreshes l'
  end.


(** The records announced by [es-bulk-data] in a trace, oldest first. *)
Fixpoint datas (l : list Action) : list Document :=
  match l with
  | [] => []
  | SchemaEmit (EsBulkData d) :: l' => d :: datas l'
  | _ :: l' => datas l'
  end.

(** What the pipeline is expected to dispatch: the operations cut into
    batches of [B], a last shorter batch holding what remains; [pend] is
    what the queue already holds. *)
Fixpoint batches (B : nat) (pend ops : list Operation)
    : list (list Operation) :=
  match ops with
  | [] => match pend with [] => [] | _ => [pend] end
  | op :: ops' =>
      let p := pend ++ [op] in
      if (B <=? length p)%nat then p :: batches B [] ops'
      else batches B p ops'
  end.

(** What every step of [esOptions] leaves as it is: the log, the bulk
    options, the objects that exist, a client, an index, a type and a
    mapping that are set, and the bulker when there are no bulk options. *)
Definition frame (w w' : World) : Prop :=
  log w' = log w
  /\ o_bulk (options w') = o_bulk (options w)
  /\ (forall a, is_Some (heap w !! a) -> heap w' !! a = heap w !! a)
  /\ (forall c, o_client (options w) = Some c ->
       o_client (options w') = Some c)
  /\ (Js.truthy_string (o_index (options w)) = true ->
       o_index (options w') = o_index (options w))
  /\ (Js.truthy_string (o_type (options w)) = true ->
       o_type (options w') = o_type (options w))
  /\ (forall m, o_mapping (options w) = Some m ->
       o_mapping (options w') = Some m)
  /\ (o_bulk (options w) = None ->
       o_bulker (options w') = o_bulker (options w)).

(** ** The arguments and the calls of the static functions *)

(** An object passed as a query or as settings: its text, and whether
    its [query] property is truthy. *)
Record JsObject : Type := { obj_json : Json; obj_query : bool }.

(** A value passed to a static function. *)
Inductive JsValue : Type :=
| VUndefined
| VNull
| VString (s : string)
| VObject (o : JsObject)
| VFunction (f : string).

(** [{}] *)
Definition empty_object : JsObject := {| obj_json := "{}"; obj_query := false |}.

(** [typeof v === 'function'] *)
Definition is_function (v : JsValue) : bool :=
  match v with VFunction _ => true | _ => false end.

(** [typeof v === 'string'] *)
Definition is_string (v : JsValue) : bool :=
  match v with VString _ => true | _ => false end.

(** Truthiness: [undefined], [null] and [''] are falsy. *)
Definition truthy (v : JsValue) : bool :=
  match v with
  | VUndefined | VNull | VString EmptyString => false
  | _ => true
  end.

(** [v || {}] *)
Definition or_empty (v : JsValue) : JsValue :=
  if truthy v then v else VObject empty_object.

(** The body of a search: the query object as it is, or [{query: v}]. *)
Inductive SearchBody : Type :=
| BodyAsIs (o : JsObject)
| BodyQuery (v : JsValue).

(** The parameters given to [client.search]. *)
Record SearchParams : Type := {
  sp_index : option string;
  sp_type : option string;
  sp_q : option string;
  sp_body : option SearchBody
}.

(** Calls of the static functions on the client, and on the [defer] made
    from the callback [cb]. *)
Inductive StaticCall : Type :=
| IndicesExists (index : option string)
| IndicesCreate (index : option string) (body : JsValue)
| IndicesPutMapping (index type : option string)
                    (key : option string) (mapping : option Mapping)
| IndicesRefresh (index type : option string)
| ClientSearch (params : SearchParams)
| DeferReject (cb : JsValue) (err : EsError)
| DeferCallback (cb : JsValue) (err : option EsError) (res : option Json).

(** search, lines 137-147: the optional arguments. *)
Definition search_args (query options callback : JsValue)
    : JsValue * JsValue * JsValue :=
  let '(query, options, callback) :=
    if is_function query
    then (VObject empty_object, VObject empty_object, query)
    else (query, options, callback) in
  let '(options, callback) :=
    if is_function options
    then (VObject empty_object, options)
    else (options, callback) in
  (or_empty query, or_empty options, callback).

(** search, lines 150-160: [q] for a string, a body otherwise. *)
Definition search_params (esOptions : Options) (query : JsValue)
    : SearchParams :=
  match query with
  | VString s =>
      {| sp_index := o_index esOptions; sp_type := o_type esOptions;
         sp_q := Some s; sp_body := None |}
  | VObject o =>
      {| sp_index := o_index esOptions; sp_type := o_type esOptions;
         sp_q := None;
         sp_body := Some (if obj_query o then BodyAsIs o
                          else BodyQuery query) |}
  | _ =>
      {| sp_index := o_index esOptions; sp_type := o_type esOptions;
         sp_q := None; sp_body := Some (BodyQuery query) |}
  end.

(** createMapping, lines 66-69: with fewer than two arguments the first
    one is the callback and the settings are [{}]. *)
Definition createMapping_args (args : list JsValue) : JsValue * JsValue :=
  if (length args <? 2)%nat
  then (VObject empty_object, nth 0 args VUndefined)
  else (nth 0 args VUndefined, nth 1 args VUndefined).

(** synchronize, lines 176-188: the first function among the first three
    arguments is the callback, and what follows it is dropped. *)
Definition synchronize_args (conditions projection options callback : JsValue)
    : JsValue * JsValue * JsValue * JsValue :=
  if is_function conditions
  then (VObject empty_object, VNull, VNull, conditions)
  else if is_function projection
  then (conditions, VNull, VNull, projection)
  else if is_function options
  then (conditions, projection, VNull, options)
  else (conditions, projection, options, callback).

(** The text handed to [find] for an argument; [None] is [null]. *)
Definition json_of (v : JsValue) : option Json :=
  match v with
  | VString s => Some s
  | VObject o => Some (obj_json o)
  | VFunction f => Some f
  | VUndefined | VNull => None
  end.

(** [conditions || {}] is taken by [synchronize] on [None]. *)
Definition truthy_json (v : JsValue) : option Json :=
  if truthy v then json_of v else None.

(** How often a trace of a static function calls [putMapping], creates an
    index, and uses the [defer]. *)
Definition is_put (c : StaticCall) : bool :=
  match c with IndicesPutMapping _ _ _ _ => true | _ => false end.

Definition is_create (c : StaticCall) : bool :=
  match c with IndicesCreate _ _ => true | _ => false end.

Definition is_defer (c : StaticCall) : bool :=
  match c with DeferReject _ _ | DeferCallback _ _ _ => true | _ => false end.

Definition count_calls (f : StaticCall -> bool) (l : list StaticCall) : nat :=
  length (List.filter f l).

(** The operations pushed in a trace, oldest first. *)
Fixpoint pushes (l : list Action) : list Operation :=
  match l with
  | [] => []
  | BulkerPush op :: l' => op :: pushes l'
  | _ :: l' => pushes l'
  end.

(** How often a trace resumes the stream. *)
Fixpoint resumes (l : list Action) : nat :=
  match l with
  | [] => 0
  | StreamResume :: l' => S (resumes l')
  | _ :: l' => resumes l'
  end.

(** The queue notifications in a trace, oldest first. *)
Fixpoint notes (l : list Action) : list Notification :=
  match l with
  | [] => []
  | SchemaEmit (EsBulkSent n) :: l' => EsBulkSent n :: notes l'
  | SchemaEmit (EsBulkError e) :: l' => EsBulkError e :: notes l'
  | _ :: l' => notes l'
  end.

(** The records of the 'data' events among [evs], in order. *)
Fixpoint records (evs : list Event) : list Document :=
  match evs with
  | [] => []
  | StreamData d :: evs' => d :: records evs'
  | _ :: evs' => records evs'
  end.

(** The notifications that answer the batches [bs], the first of them by
    the bulk call number [k]. *)
Fixpoint answers (bulkReply : nat -> option EsError) (k : nat)
    (bs : list (list Operation)) : list Notification :=
  match bs with
  | [] => []
  | b :: bs' =>
      match bulkReply k with
      | None => EsBulkSent (length b)
      | Some e => EsBulkError e
      end :: answers bulkReply (S k) bs'
  end.

(** The lengths reported by [es-bulk-sent]. *)
Fixpoint sent_total (l : list Notification) : nat :=
  match l with
  | [] => 0
  | EsBulkSent n :: l' => n + sent_total l'
  | _ :: l' => sent_total l'
  end.

(** ** Sample collaborators and data, for the examples *)

Module Sample.

(** A first letter in lower case; an undefined name is an error. *)
Definition lcFirst (name : option string) : Res string :=
  match name with
  | Some (String c rest) =>
      let n := Ascii.nat_of_ascii c in
      Ok (String (if (65 <=? n)%nat && (n <=? 90)%nat
                  then Ascii.ascii_of_nat (n + 32) else c) rest)
  | Some EmptyString => Ok EmptyString
  | None => Throw (TypeError "Cannot read property 'charAt' of undefined")
  end.

(** The mapping of a schema is the schema description itself. *)
Definition generateMapping (schema : option Json) : Res Json :=
  match schema with
  | Some s => Ok s
  | None => Throw (TypeError "Cannot read property 'paths' of undefined")
  end.

(** The body of a document is its fields. *)
Definition serialize (doc : Document) (mapping : option Mapping) : Json :=
  doc_fields doc.

Definition book : Model :=
  {| collection_name := "books"; modelName := "Book";
     schema := "{title: String}" |}.

Definition doc1 : Document := {| doc_id := "1"; doc_fields := "{title: 'a'}" |}.
Definition doc2 : Document := {| doc_id := "2"; doc_fields := "{title: 'b'}" |}.

Definition e404 : EsError := {| message := "Not Found (404)" |}.
Definition e503 : EsError := {| message := "Service Unavailable" |}.

(** [Model.plugin(mexp, {client: esClient})] *)
Definition client_only : Options :=
  {| o_index := None; o_type := None; o_client := Some 0; o_bulk := None;
     o_bulker := None; o_mapping := None |}.

(** [Model.plugin(mexp, {client: esClient, bulk: {batch: b}})] *)
Definition with_bulk (b : Z) : Options :=
  {| o_index := None; o_type := None; o_client := Some 0;
     o_bulk := Some {| batch := Some b |}; o_bulker := None;
     o_mapping := None |}.

(** Options in which everything is resolved. *)
Definition resolved : Options :=
  {| o_index := Some "books"%string; o_type := Some "book"%string;
     o_client := Some 0; o_bulk := None; o_bulker := None;
     o_mapping := Some {| properties := "{title: String}" |} |}.

(** The plugin just registered with the given options: the client
    exists, nothing was called. *)
Definition world (o : Options) : World :=
  {| options := o; heap := {[ 0 := ClientObj ]}; log := [] |}.

(** Settings given to [esCreateMapping], and a callback. *)
Definition settings : JsValue :=
  VObject {| obj_json := "{analysis: {}}"; obj_query := false |}.

Definition callback : JsValue := VFunction "done".



End Sample.

Section Plugin.

(** ** The collaborators under lib/, which index.js only calls *)

(** [utils.lcFirst], applied to [this.modelName] ([None]: undefined). *)
Variable lcFirst : option string -> Res string.

(** [require('./lib/mapping').generate], applied to [this.schema]. *)
Variable generateMapping : option Json -> Res Json.

(** [utils.serialize(doc, mapping)] *)
Variable serialize : Document -> option Mapping -> Json.

(** ** esOptions (index.js, lines 16-39) *)

(** Lines 17-19: the index defaults to the collection name. *)
Definition resolve_index (this : Receiver) : M unit :=
  o ← get_options;
  when (negb (Js.truthy_string (o_index o)))
    (name ← this_collection_name this;
     o ← get_options; set_options (with_index name o)).

(** Lines 20-22: the type defaults to the model name, first letter in
    lower case. *)
Definition resolve_type (this : Receiver) : M unit :=
  o ← get_options;
  when (negb (Js.truthy_string (o_type o)))
    (t ← lift (lcFirst (this_modelName this));
     o ← get_options; set_options (with_type t o)).

(** Lines 24-26: the client is created once. *)
Definition resolve_client : M unit :=
  o ← get_options;
  when (negb (bool_decide (is_Some (o_client o))))
    (c ← new ClientObj;
     o ← get_options; set_options (with_client c o)).

(** Lines 28-30: with bulk options, a bulker is created. *)
Definition resolve_bulker : M unit :=
  o ← get_options;
  when (bool_decide (is_Some (o_bulk o)))
    (b ← new (BulkerObj (o_client o) (o_bulk o));
     o ← get_options; set_options (with_bulker b o)).

(** Lines 32-36: the mapping is generated once from the schema. *)
Definition resolve_mapping (this : Receiver) : M unit :=
  o ← get_options;
  when (negb (bool_decide (is_Some (o_mapping o))))
    (p ← lift (generateMapping (this_schema this));
     o ← get_options; set_options (with_mapping {| properties := p |} o)).

Definition esOptions (this : Receiver) : M Options :=
  resolve_index this;;
  resolve_type this;;
  resolve_client;;
  resolve_bulker;;
  resolve_mapping this;;
  o ← get_options;
  mret (highClone o).

(** ** indexDoc (lines 255-270)

    [reply] is what the index engine answers to the index call. *)
Definition indexDoc (reply : option EsError * option Json)
    (this : Document) (callback : Callback) : M unit :=
  esOptions ← esOptions OnStatics;
  perform [ClientIndex (o_client esOptions) (o_index esOptions)
             (o_type esOptions) (doc_id this)
             (serialize this (o_mapping esOptions))];;
  perform (defer_callback callback (fst reply) (snd reply)).

(** [options.client.delete({index, type, id}, ...)] *)
Definition delete_call (options : Options) (document : Document) : Action :=
  ClientDelete (o_client options) (o_index options) (o_type options)
    (doc_id document).

(** ** deleteByMongoId (lines 293-314)

    [reply n] is the error, if any, the index engine answers to the
    delete call number [n] of this document; [attempt] counts the calls
    already answered. *)
Equations? deleteByMongoId (reply : nat -> option EsError) (attempt : nat)
    (options : Options) (document : Document)
    (callback : option EsError -> list Action) (retry : Z)
    : list Action by wf (Z.to_nat retry) lt :=
deleteByMongoId reply attempt options document callback retry
  with reply attempt => {
  | Some err with notFound err => {
    | true with Z_gt_dec retry 0 => {
      | left _ :=
          delete_call options document
          :: SetTimeout 500
          :: deleteByMongoId reply (S attempt) options document callback
               (retry - 1)%Z;
      | right _ := delete_call options document :: callback (Some err) };
    | false := delete_call options document :: callback (Some err) };
  | None := delete_call options document :: callback None }.
Proof. lia. Qed.

(** An index engine that reports [err] for the first [K] delete calls and
    success from then on. *)
Definition failing_times (K : nat) (err : EsError) : nat -> option EsError :=
  fun n => if (n <? K)%nat then Some err else None.

(** [n] failed attempts, each followed by the backoff delay. *)
Definition retries (n : nat) (options : Options) (document : Document)
    : list Action :=
  concat (repeat [delete_call options document; SetTimeout 500] n).

(** ** removeDoc (lines 278-283) *)
Definition removeDoc (reply : nat -> option EsError)
    (this : Document) (callback : Callback) : M unit :=
  esOptions ← esOptions OnStatics;
  perform (deleteByMongoId reply 0 esOptions this
             (fun err => defer_callback callback err None) 3%Z).

(** ** postSave (lines 321-327) and postRemove (lines 334-340)

    [doc] is [None] when the hook is called without a document. *)
Definition postSave (reply : option EsError * option Json)
    (doc : option Document) : M unit :=
  match doc with
  | Some d =>
      indexDoc reply d
        (UserCallback (fun err res => [DocEmit d "es-indexed" err res]))
  | None => mret tt
  end.

Definition postRemove (reply : nat -> option EsError)
    (doc : option Document) : M unit :=
  match doc with
  | Some d =>
      removeDoc reply d
        (UserCallback (fun err res => [DocEmit d "es-removed" err res]))
  | None => mret tt
  end.

(** ** synchronize: the set-up (lines 190-196 and 222-223)

    The query arguments are taken after the shuffling of optional
    arguments: [None] is [null]. *)

(** [esOptions.bulk && esOptions.bulk.batch ? esOptions.bulk.batch : 50] *)
Definition batchOf (esOptions : Options) : Z :=
  match o_bulk esOptions with
  | Some cfg =>
      if Js.truthy_number (batch cfg)
      then match batch cfg with Some b => b | None => 50%Z end
      else 50%Z
  | None => 50%Z
  end.

Definition synchronize (this : Model)
    (conditions projection options : option Json) : M (Options * addr) :=
  esOptions ← esOptions (OnModel this);
  perform [Find (default "{}"%string conditions) projection options
             (batchOf esOptions)];;
  bulker ← match o_bulker esOptions with
           | Some b => mret b
           | None => new (BulkerObj (o_client esOptions) None)
           end;
  perform [BulkerOn bulker OnError; BulkerOn bulker OnSent];;
  mret (esOptions, bulker).

(** The state in which the handlers start: the stream flows, both
    listeners are registered. *)
Definition sync_start {Q : Type} (esOptions : Options) (q : Q) : Sync Q :=
  {| sy_options := esOptions; bulker := q; streamClosed := false;
     onError_on := true; onSent_on := true; paused := false; acts := [] |}.

(** ** synchronize: the handlers (lines 198-244) *)

Section Handlers.

Context {Q : Type} {BQ : BulkQueue Q}.

Definition act (l : list Action) : St Q unit := fun s =>
  (tt, {| sy_options := sy_options s; bulker := bulker s;
          streamClosed := streamClosed s; onError_on := onError_on s;
          onSent_on := onSent_on s; paused := paused s;
          acts := acts s ++ l |}).

Definition set_paused (b : bool) : St Q unit := fun s =>
  (tt, {| sy_options := sy_options s; bulker := bulker s;
          streamClosed := streamClosed s; onError_on := onError_on s;
          onSent_on := onSent_on s; paused := b; acts := acts s |}).

Definition set_streamClosed (b : bool) : St Q unit := fun s =>
  (tt, {| sy_options := sy_options s; bulker := bulker s;
          streamClosed := b; onError_on := onError_on s;
          onSent_on := onSent_on s; paused := paused s; acts := acts s |}).

Definition set_bulker (q : Q) : St Q unit := fun s =>
  (tt, {| sy_options := sy_options s; bulker := q;
          streamClosed := streamClosed s; onError_on := onError_on s;
          onSent_on := onSent_on s; paused := paused s; acts := acts s |}).

Definition unregister (l : Listener) : St Q unit := fun s =>
  (tt, {| sy_options := sy_options s; bulker := bulker s;
          streamClosed := streamClosed s;
          onError_on := match l with OnError => false | OnSent => onError_on s end;
          onSent_on := match l with OnSent => false | OnError => onSent_on s end;
          paused := paused s; acts := acts s |}).

Definition read {A : Type} (f : Sync Q -> A) : St Q A := fun s => (f s, s).

(** [stream.pause()] and [stream.resume()] *)
Definition stream_pause : St Q unit := act [StreamPause];; set_paused true.
Definition stream_resume : St Q unit := act [StreamResume];; set_paused false.

(** [schema.emit(...)] *)
Definition schema_emit (n : Notification) : St Q unit := act [SchemaEmit n].

(** [bulker.removeListener(...)] *)
Definition bulker_removeListener (l : Listener) : St Q unit :=
  act [BulkerRemoveListener l];; unregister l.

(** [bulker.push(header, body)] *)
Definition bulker_push (op : Operation) : St Q bool :=
  act [BulkerPush op];;
  q ← read bulker;
  let '(r, q', out) := push op q in
  set_bulker q';; act (map ClientBulk out);; mret r.

(** [bulker.flush()] *)
Definition bulker_flush : St Q unit :=
  act [BulkerFlush];;
  q ← read bulker;
  let (q', out) := flush q in
  set_bulker q';; act (map ClientBulk out).

(** [bulker.filled()] *)
Definition bulker_filled : St Q bool := q ← read bulker; mret (filled q).

(** The operation pushed for a record (lines 228-229). *)
Definition index_op (esOptions : Options) (doc : Document) : Operation :=
  {| op_kind := OpIndex; op_index := o_index esOptions;
     op_type := o_type esOptions; op_id := doc_id doc;
     op_body := serialize doc (o_mapping esOptions) |}.

Definition finalize : St Q unit :=
  bulker_removeListener OnError;;
  bulker_removeListener OnSent;;
  esOptions ← read sy_options;
  act [ClientRefresh (o_index esOptions)].

Definition onError (err : EsError) : St Q unit :=
  schema_emit (EsBulkError err);;
  isClosed ← read streamClosed;
  if (isClosed : bool) then finalize else stream_resume.

Definition onSent (len : nat) : St Q unit :=
  schema_emit (EsBulkSent len);;
  isClosed ← read streamClosed;
  if (isClosed : bool) then finalize else stream_resume.

(** The stream's 'data' handler. *)
Definition onData (doc : Document) : St Q unit :=
  stream_pause;;
  esOptions ← read sy_options;
  sending ← bulker_push (index_op esOptions doc);
  schema_emit (EsBulkData doc);;
  if negb sending then stream_resume else mret tt.

(** The stream's 'close' handler. *)
Definition onClose : St Q unit :=
  set_streamClosed true;;
  f ← bulker_filled;
  if (f : bool) then bulker_flush else finalize.

(** [defer.callback], given to the refresh call: it settles the outcome of
    [synchronize] with what the refresh call answers. *)
Definition onRefreshed (err : option EsError) (res : option Json)
    : St Q unit :=
  act [Settle err res].

(** An event reaches the handler registered for it; a queue event whose
    listener was removed reaches nothing. *)
Definition deliver (ev : Event) : St Q unit :=
  match ev with
  | StreamData doc => onData doc
  | StreamClose => onClose
  | BulkerSent len =>
      registered ← read onSent_on; if (registered : bool) then onSent len else mret tt
  | BulkerError err =>
      registered ← read onError_on; if (registered : bool) then onError err else mret tt
  | Refreshed err res => onRefreshed err res
  end.

Definition deliver_all (evs : list Event) (s : Sync Q) : Sync Q :=
  fold_left (fun s ev => exec (deliver ev) s) evs s.

End Handlers.

(** ** The pipeline: stream, controller, queue and index engine

    Modelled from the spec: the primary store produces an ordered,
    pausable and resumable sequence of records and an end-of-sequence
    signal; while paused it emits nothing. The index engine answers each
    bulk call and each refresh call. *)

Record System : Type := {
  ctl : Sync Bulker;
  cursor : list Document;     (* records the stream has not emitted yet *)
  ended : bool;               (* the stream has emitted 'close' *)
  bulkAnswered : nat;         (* bulk calls answered so far *)
  refreshAnswered : nat       (* refresh calls answered so far *)
}.

Section Pipeline.

Context (BQ : BulkQueue Bulker).

(** [bulkReply n]: the error, if any, answered to bulk call number [n];
    [refreshReply]: what the refresh call answers. *)
Variable bulkReply : nat -> option EsError.
Variable refreshReply : option EsError * option Json.

Definition with_bulker_state (q : Bulker) (out : list (list Operation))
    (c : Sync Bulker) : Sync Bulker :=
  exec (set_bulker q;; act (map ClientBulk out)) c.

(** The stream emits its next record, or 'close' after the last one. *)
Definition stream_step (s : System) : System :=
  match cursor s with
  | d :: ds =>
      {| ctl := exec (deliver (StreamData d)) (ctl s); cursor := ds;
         ended := false; bulkAnswered := bulkAnswered s;
         refreshAnswered := refreshAnswered s |}
  | [] =>
      {| ctl := exec (deliver StreamClose) (ctl s); cursor := [];
         ended := true; bulkAnswered := bulkAnswered s;
         refreshAnswered := refreshAnswered s |}
  end.

(** The bulk call in flight is answered: the queue emits its event, then
    dispatches a batch that waited. *)
Definition bulk_step (s : System) : System :=
  let (q1, ev) := Bulker_complete (bulkReply (bulkAnswered s)) (bulker (ctl s)) in
  let c1 := with_bulker_state q1 [] (ctl s) in
  let c2 := match ev with
            | Some (Sent n) => exec (deliver (BulkerSent n)) c1
            | Some (Error e) => exec (deliver (BulkerError e)) c1
            | None => c1
            end in
  let (q3, out) := Bulker_next (bulker c2) in
  {| ctl := with_bulker_state q3 out c2; cursor := cursor s;
     ended := ended s; bulkAnswered := S (bulkAnswered s);
     refreshAnswered := refreshAnswered s |}.

(** The refresh call is answered. *)
Definition refresh_step (s : System) : System :=
  {| ctl := exec (deliver (Refreshed (fst refreshReply) (snd refreshReply)))
                 (ctl s);
     cursor := cursor s; ended := ended s; bulkAnswered := bulkAnswered s;
     refreshAnswered := S (refreshAnswered s) |}.

Definition stream_ready (s : System) : bool :=
  negb (paused (ctl s)) && negb (ended s).

Definition bulk_ready (s : System) : bool :=
  bool_decide (is_Some (inFlight (bulker (ctl s)))).

Definition refresh_ready (s : System) : bool :=
  (refreshAnswered s <? refreshes (acts (ctl s)))%nat.

(** How many kinds of event could happen next. *)
Definition ready_events (s : System) : nat :=
  (if stream_ready s then 1 else 0)
  + (if bulk_ready s then 1 else 0)
  + (if refresh_ready s then 1 else 0).

(** One turn of the event loop; [None] when nothing is left to happen. *)
Definition step (s : System) : option System :=
  if stream_ready s then Some (stream_step s)
  else if bulk_ready s then Some (bulk_step s)
  else if refresh_ready s then Some (refresh_step s)
  else None.

Fixpoint run (fuel : nat) (s : System) : System :=
  match fuel with
  | O => s
  | S n => match step s with
           | Some s' => run n s'
           | None => s
           end
  end.

Definition system_start (esOptions : Options) (q : Bulker)
    (docs : list Document) : System :=
  {| ctl := sync_start esOptions q; cursor := docs; ended := false;
     bulkAnswered := 0; refreshAnswered := 0 |}.

End Pipeline.

(** The states of the pipeline in which the stream flows: nothing is in
    flight, the queue holds [p], the stream still has [docs] to emit. *)
Definition flowing_state (esOptions : Options) (B : nat)
    (p : list Operation) (docs : list Document) (k r : nat)
    (a : list Action) : System :=
  {| ctl := {| sy_options := esOptions;
               bulker := {| size := B; pending := p; waiting := [];
                            inFlight := None |};
               streamClosed := false; onError_on := true; onSent_on := true;
               paused := false; acts := a |};
     cursor := docs; ended := false; bulkAnswered := k;
     refreshAnswered := r |}.

(** The stream is paused, the batch [b] is in flight. *)
Definition awaiting_state (esOptions : Options) (B : nat)
    (b : list Operation) (docs : list Document) (k r : nat)
    (a : list Action) : System :=
  {| ctl := {| sy_options := esOptions;
               bulker := {| size := B; pending := []; waiting := [];
                            inFlight := Some b |};
               streamClosed := false; onError_on := true; onSent_on := true;
               paused := true; acts := a |};
     cursor := docs; ended := false; bulkAnswered := k;
     refreshAnswered := r |}.

(** The stream has closed, the flushed batch [b] is in flight. *)
Definition flushing_state (esOptions : Options) (B : nat)
    (b : list Operation) (k r : nat) (a : list Action) : System :=
  {| ctl := {| sy_options := esOptions;
               bulker := {| size := B; pending := []; waiting := [];
                            inFlight := Some b |};
               streamClosed := true; onError_on := true; onSent_on := true;
               paused := false; acts := a |};
     cursor := []; ended := true; bulkAnswered := k;
     refreshAnswered := r |}.

(** The stream has closed and [finalize] has run. *)
Definition finalized_state (esOptions : Options) (B : nat) (k r : nat)
    (a : list Action) : System :=
  {| ctl := {| sy_options := esOptions;
               bulker := {| size := B; pending := []; waiting := [];
                            inFlight := None |};
               streamClosed := true; onError_on := false; onSent_on := false;
               paused := false; acts := a |};
     cursor := []; ended := true; bulkAnswered := k;
     refreshAnswered := r |}.

(** The notification that answers a bulk call for [n] operations. *)
Definition bulk_notification (reply : option EsError) (n : nat)
    : Notification :=
  match reply with
  | None => EsBulkSent n
  | Some e => EsBulkError e
  end.

(** ** createMapping (lines 65-113)

    [existsReply], [createReply] and [putReply] are what the index engine
    answers to the calls; the calls made are returned, in order. *)
Definition put_mapping (esOptions : Options) : StaticCall :=
  IndicesPutMapping (o_index esOptions) (o_type esOptions)
    (o_type esOptions) (o_mapping esOptions).

Definition createMapping (existsReply : option EsError * bool)
    (createReply : option EsError) (putReply : option EsError * option Json)
    (this : Model) (args : list JsValue) : M (list StaticCall) :=
  let '(settings, callback) := createMapping_args args in
  esOptions ← esOptions (OnModel this);
  mret (IndicesExists (o_index esOptions)
        :: match existsReply with
           | (Some err, _) => [DeferReject callback err]
           | (None, true) =>
               [put_mapping esOptions;
                DeferCallback callback (fst putReply) (snd putReply)]
           | (None, false) =>
               IndicesCreate (o_index esOptions) settings
               :: match createReply with
                  | Some err => [DeferReject callback err]
                  | None =>
                      [put_mapping esOptions;
                       DeferCallback callback (fst putReply) (snd putReply)]
                  end
           end).

(** ** refresh (lines 121-126) *)
Definition refresh (reply : option EsError * option Json)
    (this : Model) (callback : JsValue) : M (list StaticCall) :=
  esOptions ← esOptions (OnModel this);
  mret [IndicesRefresh (o_index esOptions) (o_type esOptions);
        DeferCallback callback (fst reply) (snd reply)].

(** ** search (lines 136-164) *)
Definition search (reply : option EsError * option Json)
    (this : Model) (query options callback : JsValue)
    : M (list StaticCall) :=
  let '(query, options, callback) := search_args query options callback in
  esOptions ← esOptions (OnModel this);
  mret [ClientSearch (search_params esOptions query);
        DeferCallback callback (fst reply) (snd reply)].

(** ** synchronize with its optional arguments (lines 175-196) *)
Definition esSynchronize (this : Model)
    (conditions projection options callback : JsValue)
    : M (JsValue * Options * addr) :=
  let '(conditions, projection, options, callback) :=
    synchronize_args conditions projection options callback in
  r ← synchronize this (truthy_json conditions) (json_of projection)
        (json_of options);
  mret (callback, fst r, snd r).

(** ** Facts about the JavaScript primitives *)

Lemma prefix_split (p s : string) :
  String.prefix p s = true <-> exists post, s = (p +:+ post)%string.
Proof.
  revert s. induction p as [|c p IH]; intros s.
  - split; [intros _; exists s; reflexivity | destruct s; reflexivity].
  - destruct s as [|d s]; simpl.
    + split; [discriminate | intros [post H]; discriminate].
    + destruct (Ascii.ascii_dec c d) as [->|Hne].
      * rewrite IH. split; intros [post H]; exists post.
        -- now rewrite H.
        -- now injection H.
      * split; [discriminate | intros [post H]; injection H; congruence].
Qed.

Lemma indexOfFrom_found (pos : Z) (pat s : string) :
  (0 <= pos)%Z ->
  ((-1 < Js.indexOfFrom pos pat s)%Z <-> Js.contains s pat).
Proof.
  revert pos. induction s as [|c s IH]; intros pos Hpos; cbn [Js.indexOfFrom].
  - destruct (String.prefix pat "") eqn:Hp.
    + split; [intros _ | lia].
      apply prefix_split in Hp as [post Hp]. now exists ""%string, post.
    + split; [lia |]. intros [pre [post H]].
      destruct pre; [|discriminate]. simpl in H.
      assert (String.prefix pat "" = true) by (apply prefix_split; eauto).
      congruence.
  - destruct (String.prefix pat (String c s)) eqn:Hp.
    + split; [intros _ | lia].
      apply prefix_split in Hp as [post Hp]. now exists ""%string, post.
    + rewrite IH by lia. split.
      * intros [pre [post H]]. exists (String c pre), post. simpl. now rewrite H.
      * intros [pre [post H]]. destruct pre as [|d pre].
        -- simpl in H.
           assert (String.prefix pat (String c s) = true)
             by (apply prefix_split; eauto).
           congruence.
        -- simpl in H. injection H as _ H. now exists pre, post.
Qed.

(** [s.indexOf(pat) > -1] exactly when [s] contains [pat]. *)
Lemma indexOf_contains (s pat : string) :
  (Js.indexOf s pat >? -1)%Z = true <-> Js.contains s pat.
Proof.
  unfold Js.indexOf. rewrite Z.gtb_ltb, Z.ltb_lt.
  now apply indexOfFrom_found.
Qed.

(** ** The retryable delete *)

Lemma delete_success reply attempt options document callback retry :
  reply attempt = None ->
  deleteByMongoId reply attempt options document callback retry
  = delete_call options document :: callback None.
Proof.
  intros H. rewrite deleteByMongoId_equation_1, H. reflexivity.
Qed.

Lemma delete_other reply attempt options document callback retry err :
  reply attempt = Some err -> notFound err = false ->
  deleteByMongoId reply attempt options document callback retry
  = delete_call options document :: callback (Some err).
Proof.
  intros H Hn. rewrite deleteByMongoId_equation_1, H. simpl.
  rewrite Hn. reflexivity.
Qed.

Lemma delete_retry reply attempt options document callback retry err :
  reply attempt = Some err -> notFound err = true -> (0 < retry)%Z ->
  deleteByMongoId reply attempt options document callback retry
  = delete_call options document :: SetTimeout 500
    :: deleteByMongoId reply (S attempt) options document callback
         (retry - 1).
Proof.
  intros H Hn Hr. rewrite deleteByMongoId_equation_1, H. simpl.
  rewrite Hn. simpl. destruct (Z_gt_dec retry 0); [reflexivity | lia].
Qed.

Lemma delete_exhausted reply attempt options document callback retry err :
  reply attempt = Some err -> notFound err = true -> (retry <= 0)%Z ->
  deleteByMongoId reply attempt options document callback retry
  = delete_call options document :: callback (Some err).
Proof.
  intros H Hn Hr. rewrite deleteByMongoId_equation_1, H. simpl.
  rewrite Hn. simpl. destruct (Z_gt_dec retry 0); [lia | reflexivity].
Qed.

Lemma notFound_contains err :
  notFound err = true <-> Js.contains (message err) "404".
Proof. apply indexOf_contains. Qed.

Lemma retries_S n options document :
  retries (S n) options document
  = delete_call options document :: SetTimeout 500
    :: retries n options document.
Proof. reflexivity. Qed.


Lemma failing_run (K : nat) reply attempt options document callback retry err :
  notFound err = true ->
  (forall i, (i < K)%nat -> reply (attempt + i)%nat = Some err) ->
  (Z.of_nat K <= retry)%Z ->
  deleteByMongoId reply attempt options document callback retry
  = retries K options document
    ++ deleteByMongoId reply (attempt + K)%nat options document callback
         (retry - Z.of_nat K).
Proof.
  intros Hn. revert attempt retry.
  induction K as [|K IH]; intros attempt retry Hfail Hle.
  - simpl. rewrite Nat.add_0_r, Z.sub_0_r. reflexivity.
  - rewrite (delete_retry _ _ _ _ _ _ err); [| |assumption|lia].
    2: { rewrite <- (Nat.add_0_r attempt). apply Hfail. lia. }
    rewrite retries_S. simpl. do 2 f_equal.
    rewrite (IH (S attempt) (retry - 1)%Z); [| |lia].
    2: { intros i Hi. replace (S attempt + i)%nat with (attempt + S i)%nat by lia.
         apply Hfail. lia. }
    do 2 f_equal; lia.
Qed.

Lemma failing_times_lt K err attempt : (attempt < K)%nat ->
  failing_times K err attempt = Some err.
Proof.
  intros H. unfold failing_times.
  destruct (Nat.ltb_spec attempt K); [reflexivity | lia].
Qed.

Lemma failing_times_ge K err attempt : (K <= attempt)%nat ->
  failing_times K err attempt = None.
Proof.
  intros H. unfold failing_times.
  destruct (Nat.ltb_spec attempt K); [lia | reflexivity].
Qed.

(** What a delete with budget [M] does against an engine that reports
    not found [K] times. *)
Lemma delete_failing_times (K M : nat) err options document callback :
  notFound err = true ->
  deleteByMongoId (failing_times K err) 0 options document callback
    (Z.of_nat M)
  = if (K <=? M)%nat
    then retries K options document
         ++ delete_call options document :: callback None
    else retries M options document
         ++ delete_call options document :: callback (Some err).
Proof.
  intros Hn. destruct (Nat.leb_spec K M) as [Hle|Hlt].
  - rewrite (failing_run K _ _ _ _ _ _ err); [|assumption| |lia].
    2: { intros i Hi. now apply failing_times_lt. }
    f_equal. apply delete_success. now apply failing_times_ge.
  - rewrite (failing_run M _ _ _ _ _ _ err); [|assumption| |lia].
    2: { intros i Hi. apply failing_times_lt. simpl. lia. }
    f_equal. apply delete_exhausted; [|assumption|lia].
    apply failing_times_lt. simpl. lia.
Qed.

Lemma removeDoc_unfold reply this cb w o w' :
  esOptions OnStatics w = (Ok o, w') ->
  removeDoc reply this cb w
  = perform (deleteByMongoId reply 0 o this
               (fun e => defer_callback cb e None) 3) w'.
Proof.
  intros H. unfold removeDoc, mbind, M_bind. rewrite H. reflexivity.
Qed.

(** C4. Against an engine that reports not found exactly [K] times and
    then succeeds, a delete with [maxRetries = M >= K] resolves after [K]
    retries, and with [M < K] it fails after exactly [M] retries; each retry
    comes after the backoff delay of 500 ms. [removeDoc], the public
    [esRemove], runs the delete with a budget of 3 retries. *)
Theorem retryable_delete_budget (K M : nat) err options document callback :
  notFound err = true ->
  ((K <= M)%nat ->
   deleteByMongoId (failing_times K err) 0 options document callback
     (Z.of_nat M)
   = retries K options document
     ++ delete_call options document :: callback None)
  /\ ((M < K)%nat ->
      deleteByMongoId (failing_times K err) 0 options document callback
        (Z.of_nat M)
      = retries M options document
        ++ delete_call options document :: callback (Some err))
  /\ (forall this cb w o w',
        esOptions OnStatics w = (Ok o, w') ->
        removeDoc (failing_times K err) this cb w
        = perform (if (K <=? 3)%nat
                   then retries K o this
                        ++ delete_call o this :: defer_callback cb None None
                   else retries 3 o this
                        ++ delete_call o this
                           :: defer_callback cb (Some err) None) w').
Proof.
  intros Hn. repeat split.
  - intros Hle. rewrite delete_failing_times by assumption.
    destruct (Nat.leb_spec K M); [reflexivity | lia].
  - intros Hlt. rewrite delete_failing_times by assumption.
    destruct (Nat.leb_spec K M); [lia | reflexivity].
  - intros this cb w o w' H. rewrite (removeDoc_unfold _ _ _ _ _ _ H).
    change 3%Z with (Z.of_nat 3).
    rewrite delete_failing_times by assumption. reflexivity.
Qed.

(** C5. A failing delete takes the retry path exactly when the error
    message contains '404': there the retry budget decides between a
    backoff followed by a new attempt and the callback. Any other failure
    goes to the callback at once, without a delay and whatever the
    budget. *)
Theorem delete_failure_paths reply attempt options document callback retry err :
  reply attempt = Some err ->
  (Js.contains (message err) "404" ->
   deleteByMongoId reply attempt options document callback retry
   = if (0 <? retry)%Z
     then delete_call options document :: SetTimeout 500
          :: deleteByMongoId reply (S attempt) options document callback
               (retry - 1)
     else delete_call options document :: callback (Some err))
  /\ (~ Js.contains (message err) "404" ->
      deleteByMongoId reply attempt options document callback retry
      = delete_call options document :: callback (Some err)).
Proof.
  intros H. split; intros Hc.
  - apply notFound_contains in Hc. destruct (Z.ltb_spec 0 retry).
    + now apply (delete_retry _ _ _ _ _ _ err).
    + now apply delete_exhausted.
  - apply delete_other; [assumption|].
    destruct (notFound err) eqn:E; [|reflexivity].
    apply notFound_contains in E. contradiction.
Qed.

Lemma delete_ends reply attempt options document callback (R : Z) :
  (0 <= R)%Z ->
  exists (n : nat) (outcome : option EsError),
    (Z.of_nat n <= R)%Z /\
    deleteByMongoId reply attempt options document callback R
    = retries n options document
      ++ delete_call options document :: callback outcome.
Proof.
  intros HR.
  remember (Z.to_nat R) as k eqn:Hk. revert R attempt HR Hk.
  induction k as [|k IH]; intros R attempt HR Hk;
    destruct (reply attempt) as [err|] eqn:Hreply.
  - destruct (notFound err) eqn:Hn.
    + exists 0%nat, (Some err). split; [lia|].
      apply delete_exhausted; [assumption..|lia].
    + exists 0%nat, (Some err). split; [lia|]. now apply delete_other.
  - exists 0%nat, None. split; [lia|]. now apply delete_success.
  - destruct (notFound err) eqn:Hn.
    + destruct (IH (R - 1)%Z (S attempt)) as (n & outcome & Hle & Heq);
        [lia..|].
      exists (S n), outcome. split; [lia|].
      rewrite (delete_retry _ _ _ _ _ _ err) by (assumption || lia).
      rewrite retries_S, Heq. reflexivity.
    + exists 0%nat, (Some err). split; [lia|]. now apply delete_other.
  - exists 0%nat, None. split; [lia|]. now apply delete_success.
Qed.

(** C10. With a retry budget [R >= 0] the delete ends after at most [R]
    retries, that is at most [R + 1] delete calls, and then invokes the
    callback, once; a retry runs with the budget decreased by one. *)
Theorem delete_terminates reply attempt options document callback (R : Z) :
  (0 <= R)%Z ->
  (exists (n : nat) (outcome : option EsError),
     (Z.of_nat n <= R)%Z /\
     deleteByMongoId reply attempt options document callback R
     = retries n options document
       ++ delete_call options document :: callback outcome)
  /\ (forall err, reply attempt = Some err -> notFound err = true ->
      (0 < R)%Z ->
      deleteByMongoId reply attempt options document callback R
      = delete_call options document :: SetTimeout 500
        :: deleteByMongoId reply (S attempt) options document callback
             (R - 1)).
Proof.
  intros HR. split; [now apply delete_ends | intros err; apply delete_retry].
Qed.

(** ** Option resolution *)

Lemma fresh_lookup_None (h : gmap addr Obj) : h !! fresh (dom h) = None.
Proof. apply not_elem_of_dom, is_fresh. Qed.

Lemma lookup_insert_fresh (h : gmap addr Obj) (a : addr) (x : Obj) :
  is_Some (h !! a) -> <[fresh (dom h) := x]> h !! a = h !! a.
Proof.
  intros Hs. apply lookup_insert_ne. intros E. subst a.
  rewrite fresh_lookup_None in Hs. now destruct Hs.
Qed.

Lemma frame_refl w : frame w w.
Proof. unfold frame. repeat split; auto. Qed.

Lemma frame_trans w1 w2 w3 : frame w1 w2 -> frame w2 w3 -> frame w1 w3.
Proof.
  intros (L1 & B1 & H1 & C1 & I1 & T1 & M1 & K1)
         (L2 & B2 & H2 & C2 & I2 & T2 & M2 & K2).
  unfold frame. repeat split.
  - congruence.
  - congruence.
  - intros a Ha. rewrite H2; [now apply H1|]. now rewrite H1.
  - auto.
  - intros Hi. rewrite I2; [now apply I1|]. now rewrite I1.
  - intros Ht. rewrite T2; [now apply T1|]. now rewrite T1.
  - auto.
  - intros Hk. rewrite K2; [now apply K1|]. now rewrite B1.
Qed.

Lemma bind_Ok {A B : Type} (m : M A) (f : A -> M B) w b w' :
  (m ≫= f) w = (Ok b, w') ->
  exists a w1, m w = (Ok a, w1) /\ f a w1 = (Ok b, w').
Proof.
  unfold mbind, M_bind. destruct (m w) as [[a|e] w1]; [eauto | discriminate].
Qed.

Lemma bind_frame {A B : Type} (m : M A) (f : A -> M B) :
  (forall w r w', m w = (r, w') -> frame w w') ->
  (forall a w r w', f a w = (r, w') -> frame w w') ->
  forall w r w', (m ≫= f) w = (r, w') -> frame w w'.
Proof.
  intros Hm Hf w r w'. unfold mbind, M_bind.
  destruct (m w) as [[a|e] w1] eqn:E; intros H.
  - eapply frame_trans; eauto.
  - inversion H; subst. eauto.
Qed.

Ltac run_step :=
  cbv [mbind M_bind mret M_ret when get_options set_options lift throw new
       this_collection_name] in *;
  repeat match goal with
         | H : context [match ?x with _ => _ end] |- _ => destruct x eqn:?
         end;
  simpl in *;
  repeat match goal with
         | H : (_, _) = (_, _) |- _ => inversion H; subst; clear H
         end.

Ltac frame_tac :=
  unfold frame; simpl; repeat split; auto; try congruence;
  try (let Hx := fresh in intros Hx; rewrite Hx in *; discriminate).

Lemma resolve_index_frame this w r w' :
  resolve_index this w = (r, w') -> frame w w'.
Proof.
  unfold resolve_index. intros H. run_step; frame_tac.
Qed.

Lemma resolve_type_frame this w r w' :
  resolve_type this w = (r, w') -> frame w w'.
Proof.
  unfold resolve_type. intros H. run_step; frame_tac.
Qed.

Lemma resolve_client_frame w r w' :
  resolve_client w = (r, w') -> frame w w'.
Proof.
  unfold resolve_client. intros H. run_step; frame_tac.
  - intros a Ha. now apply lookup_insert_fresh.
  - intros c Hc. rewrite Hc in Heqb. discriminate.
Qed.

Lemma resolve_bulker_frame w r w' :
  resolve_bulker w = (r, w') -> frame w w'.
Proof.
  unfold resolve_bulker. intros H. run_step; frame_tac.
  intros a Ha. now apply lookup_insert_fresh.
Qed.

Lemma resolve_mapping_frame this w r w' :
  resolve_mapping this w = (r, w') -> frame w w'.
Proof.
  unfold resolve_mapping. intros H. run_step; frame_tac.
  intros m Hm. rewrite Hm in Heqb. discriminate.
Qed.

Lemma esOptions_frame this w r w' :
  esOptions this w = (r, w') -> frame w w'.
Proof.
  unfold esOptions. revert w r w'.
  apply bind_frame; [apply resolve_index_frame | intros _].
  apply bind_frame; [apply resolve_type_frame | intros _].
  apply bind_frame; [apply resolve_client_frame | intros _].
  apply bind_frame; [apply resolve_bulker_frame | intros _].
  apply bind_frame; [apply resolve_mapping_frame | intros _].
  intros w r w' H. run_step. apply frame_refl.
Qed.

Lemma resolve_client_Ok w r w' :
  resolve_client w = (r, w') -> r = Ok tt /\ is_Some (o_client (options w')).
Proof.
  unfold resolve_client. intros H. run_step; split; eauto.
  apply negb_false_iff, bool_decide_eq_true in Heqb. assumption.
Qed.

Lemma resolve_bulker_Ok w r w' :
  resolve_bulker w = (r, w') ->
  r = Ok tt
  /\ o_client (options w') = o_client (options w)
  /\ match o_bulk (options w) with
     | Some cfg =>
         o_bulker (options w') = Some (fresh (dom (heap w)))
         /\ heap w' = <[fresh (dom (heap w)) :=
                         BulkerObj (o_client (options w)) (Some cfg)]> (heap w)
     | None => w' = w
     end.
Proof.
  unfold resolve_bulker. intros H. run_step.
  - apply bool_decide_eq_true in Heqb as [cfg Hcfg]. rewrite Hcfg. auto.
  - destruct (o_bulk (options w')) eqn:E; [|auto].
    rewrite bool_decide_true in Heqb by eauto. discriminate.
Qed.

Lemma resolve_mapping_Ok this w w' :
  resolve_mapping this w = (Ok tt, w') ->
  heap w' = heap w
  /\ o_client (options w') = o_client (options w)
  /\ o_bulker (options w') = o_bulker (options w)
  /\ is_Some (o_mapping (options w')).
Proof.
  unfold resolve_mapping. intros H. run_step; repeat split; eauto.
  apply negb_false_iff, bool_decide_eq_true in Heqb. assumption.
Qed.

(** What a call of [esOptions] that returns has done. *)
Lemma esOptions_Ok this w o w' :
  esOptions this w = (Ok o, w') ->
  o = options w'
  /\ is_Some (o_client o)
  /\ is_Some (o_mapping o)
  /\ match o_bulk (options w) with
     | Some cfg =>
         exists b, o_bulker o = Some b
                   /\ heap w !! b = None
                   /\ heap w' !! b = Some (BulkerObj (o_client o) (Some cfg))
     | None => o_bulker o = o_bulker (options w)
     end.
Proof.
  intros H. unfold esOptions in H.
  apply bind_Ok in H as ([] & w1 & H1 & H).
  apply bind_Ok in H as ([] & w2 & H2 & H).
  apply bind_Ok in H as ([] & w3 & H3 & H).
  apply bind_Ok in H as ([] & w4 & H4 & H).
  apply bind_Ok in H as ([] & w5 & H5 & H).
  run_step.
  pose proof (frame_trans _ _ _ (resolve_index_frame _ _ _ _ H1)
                (frame_trans _ _ _ (resolve_type_frame _ _ _ _ H2)
                   (resolve_client_frame _ _ _ H3)))
    as (_ & Hbulk & Hheap & _ & _ & _ & _ & Hker).
  apply resolve_client_Ok in H3 as [_ Hc].
  apply resolve_bulker_Ok in H4 as (_ & Hc4 & Hb).
  apply resolve_mapping_Ok in H5 as (Hh5 & Hc5 & Hb5 & Hm5).
  unfold highClone. split; [reflexivity|].
  split; [congruence|]. split; [assumption|].
  rewrite <- Hbulk. destruct (o_bulk (options w3)) as [cfg|].
  - destruct Hb as [Hb Hh4]. exists (fresh (dom (heap w3))).
    split; [congruence|]. split.
    + destruct (heap w !! fresh (dom (heap w3))) eqn:E; [|reflexivity].
      rewrite <- Hheap, fresh_lookup_None in E by (rewrite E; eauto).
      discriminate.
    + rewrite Hh5, Hh4, lookup_insert_eq. congruence.
  - subst w4. rewrite Hb5. apply Hker. congruence.
Qed.

Lemma perform_Ok acts0 w r w' :
  perform acts0 w = (r, w') ->
  r = Ok tt /\ options w' = options w /\ heap w' = heap w
  /\ log w' = log w ++ acts0.
Proof. unfold perform. intros H. inversion H; subst. auto. Qed.

(** What a call of [synchronize] that returns has set up. *)
Lemma synchronize_Ok this conditions projection opts w o b w' :
  synchronize this conditions projection opts w = (Ok (o, b), w') ->
  exists w1,
    esOptions (OnModel this) w = (Ok o, w1)
    /\ match o_bulker o with
       | Some b' => b = b' /\ heap w' = heap w1
       | None => b = fresh (dom (heap w1))
                 /\ heap w' = <[b := BulkerObj (o_client o) None]> (heap w1)
       end
    /\ options w' = options w1
    /\ log w' = log w1
                ++ [Find (default "{}"%string conditions) projection opts
                      (batchOf o);
                    BulkerOn b OnError; BulkerOn b OnSent].
Proof.
  intros H. unfold synchronize in H.
  apply bind_Ok in H as (o' & w1 & H1 & H).
  apply bind_Ok in H as ([] & w2 & H2 & H).
  apply bind_Ok in H as (b' & w3 & H3 & H).
  apply bind_Ok in H as ([] & w4 & H4 & H).
  apply perform_Ok in H2 as (_ & Ho2 & Hh2 & Hl2).
  apply perform_Ok in H4 as (_ & Ho4 & Hh4 & Hl4).
  cbv [mret M_ret] in H. inversion H; subst; clear H.
  exists w1. split; [assumption|].
  destruct (o_bulker o) as [b0|].
  - cbv [mret M_ret] in H3. inversion H3; subst; clear H3.
    repeat split; [congruence..|]. rewrite Hl4, Hl2, <- app_assoc. reflexivity.
  - cbv [new] in H3. inversion H3; subst; clear H3. simpl in *.
    rewrite Hh2. repeat split; [congruence..|].
    rewrite Hl4. simpl. rewrite Hl2, <- app_assoc, Hh2. reflexivity.
Qed.

(** C6, as the code has it. With bulk options set, every call of
    [esOptions] creates a bulker, on the client of the options and with the
    bulk options, and yields it: the bulker did not exist before the call,
    so a later call never yields the bulker of an earlier one, and two
    [synchronize] invocations work on different bulkers. The client is the
    one the calls share. *)
Theorem esOptions_bulker_fresh this w o w' cfg :
  o_bulk (options w) = Some cfg ->
  esOptions this w = (Ok o, w') ->
  (exists b, o_bulker o = Some b
             /\ heap w !! b = None
             /\ heap w' !! b = Some (BulkerObj (o_client o) (Some cfg)))
  /\ (forall c, o_client (options w) = Some c -> o_client o = Some c)
  /\ (forall this2 o2 w2,
        esOptions this2 w' = (Ok o2, w2) ->
        o_bulker o2 <> o_bulker o /\ o_client o2 = o_client o)
  /\ (forall m1 c1 p1 q1 m2 c2 p2 q2 o1 b1 o2 b2 w1 w2,
        synchronize m1 c1 p1 q1 w = (Ok (o1, b1), w1) ->
        synchronize m2 c2 p2 q2 w1 = (Ok (o2, b2), w2) ->
        b1 <> b2).
Proof.
  intros Hcfg H.
  pose proof (esOptions_Ok _ _ _ _ H) as (Ho & Hc & _ & Hb).
  pose proof (esOptions_frame _ _ _ _ H) as (_ & Hbulk & _ & Hcl & _).
  rewrite Hcfg in Hb. destruct Hb as (b & Hb & Hnew & Hheap).
  split; [eauto|]. split; [intros c E; rewrite Ho; auto|]. split.
  - intros this2 o2 w2 H2.
    pose proof (esOptions_Ok _ _ _ _ H2) as (Ho2 & _ & _ & Hb2).
    pose proof (esOptions_frame _ _ _ _ H2) as (_ & _ & _ & Hcl2 & _).
    rewrite Hbulk, Hcfg in Hb2. destruct Hb2 as (b2 & Hb2 & Hnew2 & _).
    split.
    + rewrite Hb, Hb2. intros E. injection E as ->. congruence.
    + destruct Hc as [c Hc]. rewrite Hc, Ho2. apply Hcl2. congruence.
  - intros m1 c1 p1 q1 m2 c2 p2 q2 o1 b1 o2 b2 w1 w2 S1 S2.
    apply synchronize_Ok in S1 as (v1 & E1 & B1 & O1 & _).
    apply synchronize_Ok in S2 as (v2 & E2 & B2 & _).
    pose proof (esOptions_Ok _ _ _ _ E1) as (_ & _ & _ & K1).
    pose proof (esOptions_Ok _ _ _ _ E2) as (_ & _ & _ & K2).
    pose proof (esOptions_frame _ _ _ _ E1) as (_ & Hbulk1 & _).
    rewrite Hcfg in K1. destruct K1 as (a1 & Ha1 & _ & Hin1).
    rewrite Ha1 in B1. destruct B1 as [-> Hh1].
    rewrite O1, Hbulk1, Hcfg in K2. destruct K2 as (a2 & Ha2 & Hnew2 & _).
    rewrite Ha2 in B2. destruct B2 as [-> _].
    intros ->. congruence.
Qed.

(** ** The hooks *)

Lemma esOptions_statics_throws w :
  Js.truthy_string (o_index (options w)) = false ->
  esOptions OnStatics w
  = (Throw (TypeError "Cannot read property 'name' of undefined"), w).
Proof.
  intros H. unfold esOptions, resolve_index.
  cbv [mbind M_bind mret M_ret when get_options this_collection_name throw].
  rewrite H. reflexivity.
Qed.

Lemma esOptions_resolved this w :
  Js.truthy_string (o_index (options w)) = true ->
  Js.truthy_string (o_type (options w)) = true ->
  is_Some (o_client (options w)) ->
  is_Some (o_mapping (options w)) ->
  exists w', esOptions this w = (Ok (options w'), w')
             /\ log w' = log w
             /\ o_index (options w') = o_index (options w)
             /\ o_type (options w') = o_type (options w)
             /\ o_client (options w') = o_client (options w)
             /\ o_mapping (options w') = o_mapping (options w).
Proof.
  intros Hi Ht [c Hc] [m Hm].
  destruct (esOptions this w) as [r w'] eqn:E.
  assert (exists o, r = Ok o) as [o ->].
  { unfold esOptions, resolve_index, resolve_type, resolve_client,
      resolve_bulker, resolve_mapping in E.
    cbv [mbind M_bind mret M_ret when get_options set_options new] in E.
    rewrite Hi in E; simpl in E. rewrite Ht in E; simpl in E.
    rewrite Hc in E; simpl in E.
    destruct (bool_decide (is_Some (o_bulk (options w)))); simpl in E;
      rewrite Hm in E; simpl in E; inversion E; eauto. }
  pose proof (esOptions_Ok _ _ _ _ E) as (-> & _).
  pose proof (esOptions_frame _ _ _ _ E) as (L & _ & _ & C & I & T & Mp & _).
  exists w'. repeat split; auto.
  - rewrite (C c Hc). congruence.
  - rewrite (Mp m Hm). congruence.
Qed.

(** X5. Once the options hold an index, a type, a client and a mapping,
    the hooks call the index engine and announce its answer, whatever it
    is, on the document: the save hook after one index call, the remove
    hook after at most three retried delete calls and a last one. *)
Lemma hooks_notify_when_resolved w d :
  Js.truthy_string (o_index (options w)) = true ->
  Js.truthy_string (o_type (options w)) = true ->
  is_Some (o_client (options w)) ->
  is_Some (o_mapping (options w)) ->
  (forall reply, exists w',
      postSave reply (Some d) w = (Ok tt, w')
      /\ log w' = log w
                  ++ [ClientIndex (o_client (options w)) (o_index (options w))
                        (o_type (options w)) (doc_id d)
                        (serialize d (o_mapping (options w)));
                      DocEmit d "es-indexed" (fst reply) (snd reply)])
  /\ (forall reply, exists w' n outcome,
      postRemove reply (Some d) w = (Ok tt, w')
      /\ (n <= 3)%nat
      /\ log w' = log w
                  ++ retries n (options w') d
                  ++ [delete_call (options w') d;
                      DocEmit d "es-removed" outcome None]).
Proof.
  intros Hi Ht Hc Hm.
  split; intros reply;
    destruct (esOptions_resolved OnStatics w Hi Ht Hc Hm)
      as (w1 & E & L & I & T & C & Mp).
  - eexists. unfold postSave, indexDoc.
    cbv [mbind M_bind]. rewrite E. cbv [perform]. simpl.
    split; [reflexivity|]. simpl.
    rewrite L, I, T, C, Mp, <- app_assoc. reflexivity.
  - destruct (delete_ends reply 0 (options w1) d
                (fun e => [DocEmit d "es-removed" e None]) 3)
      as (n & outcome & Hn & Hd); [lia|].
    eexists. exists n, outcome. unfold postRemove.
    rewrite (removeDoc_unfold _ _ _ _ _ _ E). cbv [perform]. simpl.
    split; [reflexivity|]. split; [lia|]. simpl.
    rewrite L. f_equal. exact Hd.
Qed.

(** C8, where the code departs from it. A hook that runs while the
    options hold no index throws: [esIndex] and [esRemove] call [esOptions]
    on [schema.statics], which has no [collection], and nothing is
    announced on the document. *)
Theorem hooks_throw_without_index w d :
  Js.truthy_string (o_index (options w)) = false ->
  (forall reply,
     postSave reply (Some d) w
     = (Throw (TypeError "Cannot read property 'name' of undefined"), w))
  /\ (forall reply,
     postRemove reply (Some d) w
     = (Throw (TypeError "Cannot read property 'name' of undefined"), w)).
Proof.
  intros H. split; intros reply.
  - unfold postSave, indexDoc. cbv [mbind M_bind].
    rewrite (esOptions_statics_throws _ H). reflexivity.
  - unfold postRemove, removeDoc. cbv [mbind M_bind].
    rewrite (esOptions_statics_throws _ H). reflexivity.
Qed.

(** ** The handlers of synchronize *)

(** Runs the handlers on a state. *)
Ltac sync_cbv :=
  cbv [exec deliver onData onClose onSent onError onRefreshed finalize
       stream_pause stream_resume schema_emit bulker_removeListener
       bulker_push bulker_flush bulker_filled act set_paused
       set_streamClosed set_bulker unregister read mbind St_bind mret
       St_ret finalize_calls];
  simpl.

Section HandlerFacts.

Context {Q : Type} {BQ : BulkQueue Q}.

Lemma onData_exec (st : Sync Q) (doc : Document) sending q' out :
  push (index_op (sy_options st) doc) (bulker st) = (sending, q', out) ->
  exec (onData doc) st
  = {| sy_options := sy_options st; bulker := q';
       streamClosed := streamClosed st; onError_on := onError_on st;
       onSent_on := onSent_on st; paused := sending;
       acts := acts st
               ++ StreamPause :: BulkerPush (index_op (sy_options st) doc)
                  :: map ClientBulk out
               ++ SchemaEmit (EsBulkData doc)
                  :: (if sending then [] else [StreamResume]) |}.
Proof.
  intros E. sync_cbv. rewrite E. simpl.
  destruct sending; simpl; f_equal;
    repeat (rewrite <- app_assoc; simpl); reflexivity.
Qed.

Lemma finalize_exec (st : Sync Q) :
  exec finalize st
  = {| sy_options := sy_options st; bulker := bulker st;
       streamClosed := streamClosed st; onError_on := false;
       onSent_on := false; paused := paused st;
       acts := acts st ++ finalize_calls (sy_options st) |}.
Proof.
  sync_cbv. f_equal. repeat (rewrite <- app_assoc; simpl). reflexivity.
Qed.

Lemma onError_exec (st : Sync Q) (err : EsError) :
  exec (onError err) st
  = if streamClosed st
    then {| sy_options := sy_options st; bulker := bulker st;
            streamClosed := true; onError_on := false; onSent_on := false;
            paused := paused st;
            acts := acts st ++ SchemaEmit (EsBulkError err)
                            :: finalize_calls (sy_options st) |}
    else {| sy_options := sy_options st; bulker := bulker st;
            streamClosed := false; onError_on := onError_on st;
            onSent_on := onSent_on st; paused := false;
            acts := acts st ++ [SchemaEmit (EsBulkError err); StreamResume] |}.
Proof.
  sync_cbv. destruct (streamClosed st); simpl; f_equal;
    repeat (rewrite <- app_assoc; simpl); reflexivity.
Qed.

Lemma onSent_exec (st : Sync Q) (len : nat) :
  exec (onSent len) st
  = if streamClosed st
    then {| sy_options := sy_options st; bulker := bulker st;
            streamClosed := true; onError_on := false; onSent_on := false;
            paused := paused st;
            acts := acts st ++ SchemaEmit (EsBulkSent len)
                            :: finalize_calls (sy_options st) |}
    else {| sy_options := sy_options st; bulker := bulker st;
            streamClosed := false; onError_on := onError_on st;
            onSent_on := onSent_on st; paused := false;
            acts := acts st ++ [SchemaEmit (EsBulkSent len); StreamResume] |}.
Proof.
  sync_cbv. destruct (streamClosed st); simpl; f_equal;
    repeat (rewrite <- app_assoc; simpl); reflexivity.
Qed.

Lemma onClose_exec (st : Sync Q) :
  exec onClose st
  = if filled (bulker st)
    then {| sy_options := sy_options st; bulker := fst (flush (bulker st));
            streamClosed := true; onError_on := onError_on st;
            onSent_on := onSent_on st; paused := paused st;
            acts := acts st ++ BulkerFlush
                            :: map ClientBulk (snd (flush (bulker st))) |}
    else {| sy_options := sy_options st; bulker := bulker st;
            streamClosed := true; onError_on := false; onSent_on := false;
            paused := paused st;
            acts := acts st ++ finalize_calls (sy_options st) |}.
Proof.
  sync_cbv. destruct (filled (bulker st)); simpl.
  - destruct (flush (bulker st)) as [q' out]. simpl. f_equal.
    repeat (rewrite <- app_assoc; simpl). reflexivity.
  - f_equal. repeat (rewrite <- app_assoc; simpl). reflexivity.
Qed.

Lemma onRefreshed_exec (st : Sync Q) err res :
  exec (onRefreshed err res) st
  = {| sy_options := sy_options st; bulker := bulker st;
       streamClosed := streamClosed st; onError_on := onError_on st;
       onSent_on := onSent_on st; paused := paused st;
       acts := acts st ++ [Settle err res] |}.
Proof. reflexivity. Qed.

Lemma deliver_sent (st : Sync Q) (len : nat) :
  exec (deliver (BulkerSent len)) st
  = if onSent_on st then exec (onSent len) st else st.
Proof.
  cbv [exec deliver read mbind St_bind mret St_ret].
  destruct (onSent_on st); reflexivity.
Qed.

Lemma deliver_error (st : Sync Q) (err : EsError) :
  exec (deliver (BulkerError err)) st
  = if onError_on st then exec (onError err) st else st.
Proof.
  cbv [exec deliver read mbind St_bind mret St_ret].
  destruct (onError_on st); reflexivity.
Qed.

Lemma refreshes_app (l l' : list Action) :
  refreshes (l ++ l') = refreshes l + refreshes l'.
Proof.
  induction l as [|a l IH]; [reflexivity|].
  destruct a; simpl; rewrite ?IH; reflexivity.
Qed.

Lemma refreshes_bulk (out : list (list Operation)) :
  refreshes (map ClientBulk out) = 0.
Proof. induction out; [reflexivity | assumption]. Qed.

Lemma settles_app (l l' : list Action) :
  settles (l ++ l') = settles l ++ settles l'.
Proof.
  induction l as [|a l IH]; [reflexivity|].
  destruct a; simpl; rewrite ?IH; reflexivity.
Qed.

Lemma settles_bulk (out : list (list Operation)) :
  settles (map ClientBulk out) = [].
Proof. induction out; [reflexivity | assumption]. Qed.

Lemma deliver_all_app (evs evs' : list Event) (s : Sync Q) :
  deliver_all (evs ++ evs') s = deliver_all evs' (deliver_all evs s).
Proof. apply fold_left_app. Qed.

Lemma deliver_all_cons (ev : Event) (evs : list Event) (s : Sync Q) :
  deliver_all (ev :: evs) s = deliver_all evs (exec (deliver ev) s).
Proof. reflexivity. Qed.

(** What an event leaves of the state, case by case. *)
Lemma deliver_cases (ev : Event) (s : Sync Q) :
  match ev with
  | StreamData doc => exec (deliver ev) s = exec (onData doc) s
  | StreamClose => exec (deliver ev) s = exec onClose s
  | BulkerSent n =>
      exec (deliver ev) s = if onSent_on s then exec (onSent n) s else s
  | BulkerError e =>
      exec (deliver ev) s = if onError_on s then exec (onError e) s else s
  | Refreshed e r => exec (deliver ev) s = exec (onRefreshed e r) s
  end.
Proof.
  destruct ev; try reflexivity; [apply deliver_sent | apply deliver_error].
Qed.

(** Only the answer to the refresh call settles the outcome. *)
Lemma deliver_settles (ev : Event) (s : Sync Q) :
  settles (acts (exec (deliver ev) s)) = settles (acts s) ++ settled_by ev.
Proof.
  pose proof (deliver_cases ev s) as H. destruct ev as [doc| |n|e|e r];
    rewrite H; clear H.
  - destruct (push (index_op (sy_options s) doc) (bulker s))
      as [[sending q'] out] eqn:E.
    rewrite (onData_exec _ _ _ _ _ E). simpl.
    rewrite settles_app. simpl. rewrite settles_app, settles_bulk. simpl.
    destruct sending; reflexivity.
  - rewrite onClose_exec. destruct (filled (bulker s)); simpl;
      rewrite settles_app; simpl; [rewrite settles_bulk|]; reflexivity.
  - destruct (onSent_on s); [|simpl; now rewrite app_nil_r].
    rewrite onSent_exec. destruct (streamClosed s); simpl;
      rewrite settles_app; reflexivity.
  - destruct (onError_on s); [|simpl; now rewrite app_nil_r].
    rewrite onError_exec. destruct (streamClosed s); simpl;
      rewrite settles_app; reflexivity.
  - rewrite onRefreshed_exec. simpl. rewrite settles_app. reflexivity.
Qed.

Lemma deliver_all_settles (evs : list Event) (s : Sync Q) :
  settles (acts (deliver_all evs s))
  = settles (acts s) ++ concat (map settled_by evs).
Proof.
  revert s. induction evs as [|ev evs IH]; intros s.
  - simpl. now rewrite app_nil_r.
  - rewrite deliver_all_cons, IH, deliver_settles, <- app_assoc. reflexivity.
Qed.

(** Neither the stream's 'close' nor an answer to the refresh call
    resumes the stream. *)
Lemma deliver_keeps_paused (ev : Event) (s : Sync Q) :
  is_queue_event ev = false -> is_StreamData ev = false ->
  paused (exec (deliver ev) s) = paused s.
Proof.
  destruct ev; try discriminate; intros _ _.
  - change (paused (exec onClose s) = paused s). rewrite onClose_exec.
    destruct (filled (bulker s)); reflexivity.
  - reflexivity.
Qed.

Lemma deliver_all_keeps_paused (evs : list Event) (s : Sync Q) :
  forallb (fun ev => negb (is_queue_event ev) && negb (is_StreamData ev)) evs
  = true ->
  paused (deliver_all evs s) = paused s.
Proof.
  revert s. induction evs as [|ev evs IH]; intros s H; [reflexivity|].
  simpl in H. apply andb_prop in H as [Hev H].
  apply andb_prop in Hev as [Hq Hd].
  rewrite deliver_all_cons, IH by assumption.
  apply deliver_keeps_paused; now apply negb_true_iff.
Qed.

(** C1, as the code has it. For a record the stream emits, the handler
    pauses the stream, then pushes the record's index operation, then
    announces the record, and resumes the stream at once exactly when
    [push] returned [false]; when [push] returned [true] the stream stays
    paused through every event but the queue's [sent] and [error], and
    either of these resumes it while the stream is not closed. *)
Theorem onData_pause_push_resume (st : Sync Q) (doc : Document)
    (quiet : list Event) :
  let op := index_op (sy_options st) doc in
  let sending := fst (fst (push op (bulker st))) in
  let out := snd (push op (bulker st)) in
  let st' := exec (onData doc) st in
  acts st' = acts st
             ++ StreamPause :: BulkerPush op :: map ClientBulk out
             ++ SchemaEmit (EsBulkData doc)
                :: (if sending then [] else [StreamResume])
  /\ (paused st' = false <-> sending = false)
  /\ (sending = true ->
      forallb (fun ev => negb (is_queue_event ev) && negb (is_StreamData ev))
        quiet = true ->
      paused (deliver_all quiet st') = true)
  /\ (sending = true -> streamClosed st = false ->
      (forall n, onSent_on st = true ->
                 paused (exec (deliver (BulkerSent n)) st') = false)
      /\ (forall e, onError_on st = true ->
                    paused (exec (deliver (BulkerError e)) st') = false)).
Proof.
  intros op sending out st'. subst op sending out st'.
  destruct (push (index_op (sy_options st) doc) (bulker st))
    as [[sending q'] out] eqn:E.
  rewrite (onData_exec _ _ _ _ _ E). cbn [acts paused fst snd].
  split; [reflexivity|]. split; [reflexivity|]. split.
  - intros -> Hq. now rewrite deliver_all_keeps_paused.
  - intros -> Hc. split.
    + intros n Hs. rewrite deliver_sent. cbn [onSent_on].
      rewrite Hs, onSent_exec. cbn [streamClosed]. now rewrite Hc.
    + intros e He. rewrite deliver_error. cbn [onError_on].
      rewrite He, onError_exec. cbn [streamClosed]. now rewrite Hc.
Qed.

(** C2. A transport error of the queue is announced by [es-bulk-error];
    then the stream is resumed or, when the stream has closed, the
    synchronization is finalized. The outcome is settled by nothing but
    the answers to the refresh call. *)
Theorem bulk_error_is_reported (st : Sync Q) (err : EsError)
    (evs : list Event) :
  onError_on st = true ->
  acts (exec (deliver (BulkerError err)) st)
  = acts st ++ SchemaEmit (EsBulkError err)
            :: (if streamClosed st then finalize_calls (sy_options st)
                else [StreamResume])
  /\ (streamClosed st = false ->
      paused (exec (deliver (BulkerError err)) st) = false)
  /\ settles (acts (deliver_all evs st))
     = settles (acts st) ++ concat (map settled_by evs).
Proof.
  intros Hon. rewrite deliver_error, Hon, onError_exec.
  split; [|split].
  - destruct (streamClosed st); reflexivity.
  - intros ->. reflexivity.
  - apply deliver_all_settles.
Qed.

(** Before the stream closes nothing finalizes: the listeners stay, no
    refresh call is made. *)
Lemma open_deliver (ev : Event) (s : Sync Q) :
  is_StreamClose ev = false ->
  streamClosed s = false -> onError_on s = true -> onSent_on s = true ->
  let s' := exec (deliver ev) s in
  streamClosed s' = false /\ onError_on s' = true /\ onSent_on s' = true
  /\ sy_options s' = sy_options s
  /\ refreshes (acts s') = refreshes (acts s).
Proof.
  intros Hev Hc He Hs. pose proof (deliver_cases ev s) as H.
  destruct ev as [doc| |n|e|e r]; try discriminate; cbn zeta;
    rewrite H; clear H.
  - destruct (push (index_op (sy_options s) doc) (bulker s))
      as [[sending q'] out] eqn:E.
    rewrite (onData_exec _ _ _ _ _ E). cbn [streamClosed onError_on
      onSent_on sy_options acts].
    repeat split; try assumption.
    rewrite refreshes_app. simpl. rewrite refreshes_app, refreshes_bulk.
    destruct sending; simpl; lia.
  - rewrite Hs, onSent_exec, Hc. cbn [streamClosed onError_on onSent_on
      sy_options acts].
    repeat split; try assumption. rewrite refreshes_app. simpl. lia.
  - rewrite He, onError_exec, Hc. cbn [streamClosed onError_on onSent_on
      sy_options acts].
    repeat split; try assumption. rewrite refreshes_app. simpl. lia.
  - rewrite onRefreshed_exec. cbn [streamClosed onError_on onSent_on
      sy_options acts].
    repeat split; try assumption. rewrite refreshes_app. simpl. lia.
Qed.

Lemma open_deliver_all (evs : list Event) (s : Sync Q) :
  forallb (fun ev => negb (is_StreamClose ev)) evs = true ->
  streamClosed s = false -> onError_on s = true -> onSent_on s = true ->
  let s' := deliver_all evs s in
  streamClosed s' = false /\ onError_on s' = true /\ onSent_on s' = true
  /\ sy_options s' = sy_options s
  /\ refreshes (acts s') = refreshes (acts s).
Proof.
  revert s. induction evs as [|ev evs IH]; intros s Hevs Hc He Hs.
  - simpl. auto.
  - simpl in Hevs. apply andb_prop in Hevs as [Hev Hevs].
    apply negb_true_iff in Hev.
    destruct (open_deliver ev s Hev Hc He Hs) as (Hc' & He' & Hs' & Ho & Hr).
    destruct (IH _ Hevs Hc' He' Hs') as (? & ? & ? & ? & ?).
    cbn zeta. rewrite deliver_all_cons. repeat split; congruence.
Qed.

(** Once the listeners are removed no event leads to a refresh call. *)
Lemma detached_deliver_all (evs : list Event) (s : Sync Q) :
  forallb (fun ev => negb (is_stream_event ev)) evs = true ->
  onError_on s = false -> onSent_on s = false ->
  let s' := deliver_all evs s in
  onError_on s' = false /\ onSent_on s' = false
  /\ refreshes (acts s') = refreshes (acts s).
Proof.
  revert s. induction evs as [|ev evs IH]; intros s Hevs He Hs.
  - simpl. auto.
  - simpl in Hevs. apply andb_prop in Hevs as [Hev Hevs].
    apply negb_true_iff in Hev. cbn zeta. rewrite deliver_all_cons.
    pose proof (deliver_cases ev s) as H.
    destruct ev as [doc| |n|e|e r]; try discriminate.
    + rewrite H, Hs. now apply IH.
    + rewrite H, He. now apply IH.
    + rewrite H, onRefreshed_exec.
      destruct (IH {| sy_options := sy_options s; bulker := bulker s;
                      streamClosed := streamClosed s;
                      onError_on := onError_on s; onSent_on := onSent_on s;
                      paused := paused s;
                      acts := acts s ++ [Settle e r] |} Hevs He Hs)
        as (? & ? & Hr).
      repeat split; try assumption. cbn zeta in Hr. rewrite Hr.
      cbn [acts]. rewrite refreshes_app. simpl. lia.
Qed.

(** After a 'close' that forced a flush, the first event of the queue
    finalizes. *)
Lemma closing_deliver_all (evs : list Event) (s : Sync Q) :
  forallb (fun ev => negb (is_stream_event ev)) evs = true ->
  streamClosed s = true -> onError_on s = true -> onSent_on s = true ->
  let s' := deliver_all evs s in
  refreshes (acts s')
  = refreshes (acts s) + (if existsb is_queue_event evs then 1 else 0)
  /\ (existsb is_queue_event evs = true ->
      onError_on s' = false /\ onSent_on s' = false).
Proof.
  revert s. induction evs as [|ev evs IH]; intros s Hevs Hc He Hs.
  - simpl. split; [lia | discriminate].
  - simpl in Hevs. apply andb_prop in Hevs as [Hev Hevs].
    apply negb_true_iff in Hev. cbn zeta. rewrite deliver_all_cons.
    pose proof (deliver_cases ev s) as H.
    destruct ev as [doc| |n|e|e r]; try discriminate; rewrite H; clear H.
    + rewrite Hs, onSent_exec, Hc. simpl existsb. cbv iota.
      match goal with |- context [deliver_all evs ?s1] =>
        destruct (detached_deliver_all evs s1 Hevs eq_refl eq_refl)
          as (? & ? & Hr) end.
      cbn zeta in Hr. rewrite Hr. cbn [acts].
      rewrite refreshes_app. simpl. split; [lia | auto].
    + rewrite He, onError_exec, Hc. simpl existsb. cbv iota.
      match goal with |- context [deliver_all evs ?s1] =>
        destruct (detached_deliver_all evs s1 Hevs eq_refl eq_refl)
          as (? & ? & Hr) end.
      cbn zeta in Hr. rewrite Hr. cbn [acts].
      rewrite refreshes_app. simpl. split; [lia | auto].
    + rewrite onRefreshed_exec. simpl existsb.
      match goal with |- context [deliver_all evs ?s1] =>
        destruct (IH s1 Hevs Hc He Hs) as (Hr & Hd) end.
      cbn zeta in Hr, Hd. rewrite Hr. cbn [acts].
      rewrite refreshes_app. simpl. split; [lia | assumption].
Qed.

(** C3. When the stream signals its end: with a pending batch a flush
    is forced, no refresh call is made yet, and the next [sent] or [error]
    of the queue finalizes; with nothing pending the handler finalizes at
    once. Finalizing removes both listeners and makes the refresh call,
    and over the whole synchronization that call is made once: never
    before the end of the stream, and not again afterwards. *)
Theorem close_finalizes_once (st0 : Sync Q) (before after : list Event) :
  streamClosed st0 = false -> onError_on st0 = true -> onSent_on st0 = true ->
  forallb (fun ev => negb (is_StreamClose ev)) before = true ->
  forallb (fun ev => negb (is_stream_event ev)) after = true ->
  let st := deliver_all before st0 in
  let st1 := exec (deliver StreamClose) st in
  let st2 := deliver_all after st1 in
  refreshes (acts st) = refreshes (acts st0)
  /\ streamClosed st1 = true
  /\ (if filled (bulker st)
      then acts st1 = acts st ++ BulkerFlush
                               :: map ClientBulk (snd (flush (bulker st)))
           /\ (forall n, acts (exec (deliver (BulkerSent n)) st1)
                         = acts st1 ++ SchemaEmit (EsBulkSent n)
                                    :: finalize_calls (sy_options st0))
           /\ (forall e, acts (exec (deliver (BulkerError e)) st1)
                         = acts st1 ++ SchemaEmit (EsBulkError e)
                                    :: finalize_calls (sy_options st0))
           /\ refreshes (acts st2)
              = refreshes (acts st0)
                + (if existsb is_queue_event after then 1 else 0)
           /\ (existsb is_queue_event after = true ->
               onError_on st2 = false /\ onSent_on st2 = false)
      else acts st1 = acts st ++ finalize_calls (sy_options st0)
           /\ refreshes (acts st2) = refreshes (acts st0) + 1
           /\ onError_on st2 = false /\ onSent_on st2 = false).
Proof.
  intros Hc He Hs Hbefore Hafter st st1 st2.
  destruct (open_deliver_all before st0 Hbefore Hc He Hs)
    as (Hc' & He' & Hs' & Ho & Hr).
  fold st in Hc', He', Hs', Ho, Hr.
  split; [assumption|].
  assert (st1 = exec onClose st) as E1 by reflexivity.
  rewrite onClose_exec in E1.
  destruct (filled (bulker st)) eqn:Hf.
  - split; [now rewrite E1|]. split; [now rewrite E1|].
    assert (streamClosed st1 = true /\ onError_on st1 = true
            /\ onSent_on st1 = true /\ sy_options st1 = sy_options st0)
      as (C1 & E1' & S1 & O1).
    { rewrite E1. cbn. repeat split; congruence. }
    split; [|split].
    + intros n. rewrite deliver_sent, S1, onSent_exec, C1, O1. reflexivity.
    + intros e. rewrite deliver_error, E1', onError_exec, C1, O1.
      reflexivity.
    + destruct (closing_deliver_all after st1 Hafter C1 E1' S1) as [R D].
      fold st2 in R, D. split; [|assumption].
      rewrite R. rewrite E1 at 1. cbn [acts].
      rewrite refreshes_app. simpl. rewrite refreshes_bulk. lia.
  - split; [now rewrite E1|]. split; [rewrite E1, Ho; reflexivity|].
    assert (onError_on st1 = false /\ onSent_on st1 = false) as [E1' S1].
    { rewrite E1. cbn. auto. }
    destruct (detached_deliver_all after st1 Hafter E1' S1) as (? & ? & R).
    fold st2 in R. repeat split; try assumption.
    rewrite R, E1. cbn [acts]. rewrite refreshes_app. simpl. lia.
Qed.

End HandlerFacts.

(** ** The set-up of synchronize *)

Lemma Bulker_new_size (B : nat) :
  (0 < B)%nat ->
  Bulker_new (Some {| batch := Some (Z.of_nat B) |})
  = {| size := B; pending := []; waiting := []; inFlight := None |}.
Proof.
  intros H. unfold Bulker_new.
  destruct (Z.ltb_spec 0 (Z.of_nat B)); [|lia]. now rewrite Nat2Z.id.
Qed.

(** C9. [synchronize] opens the stream with the configured bulk batch
    size as read batch size, and with 50 when none is configured; 50 is
    also the bound of a bulker created without a batch size. *)
Theorem synchronize_read_batch this conditions projection opts w o b w' :
  synchronize this conditions projection opts w = (Ok (o, b), w') ->
  log w' = log w
           ++ [Find (default "{}"%string conditions) projection opts
                 (batchOf o);
               BulkerOn b OnError; BulkerOn b OnSent]
  /\ (forall n, o_bulk (options w) = Some {| batch := Some n |} ->
                n <> 0%Z -> batchOf o = n)
  /\ (o_bulk (options w) = None
      \/ o_bulk (options w) = Some {| batch := None |} ->
      batchOf o = 50%Z)
  /\ size (Bulker_new None) = 50
  /\ size (Bulker_new (Some {| batch := None |})) = 50.
Proof.
  intros H. apply synchronize_Ok in H as (w1 & E & _ & _ & L).
  pose proof (esOptions_Ok _ _ _ _ E) as (Ho & _).
  pose proof (esOptions_frame _ _ _ _ E) as (L1 & Hbulk & _).
  subst o. rewrite <- L1.
  repeat split; try assumption.
  - intros n Hn Hz. unfold batchOf. rewrite Hbulk, Hn. simpl.
    destruct (Z.eqb_spec n 0); [contradiction | reflexivity].
  - intros [Hn|Hn]; unfold batchOf; rewrite Hbulk, Hn; reflexivity.
Qed.

(** ** The pipeline *)


Lemma batches_concat (B : nat) (p ops : list Operation) :
  concat (batches B p ops) = p ++ ops.
Proof.
  revert p. induction ops as [|op ops IH]; intros p.
  - simpl. destruct p; simpl; now rewrite ?app_nil_r.
  - simpl. destruct (B <=? length (p ++ [op]))%nat; simpl; rewrite IH.
    + simpl. now rewrite <- app_assoc.
    + now rewrite <- app_assoc.
Qed.


Lemma datas_app (l l' : list Action) : datas (l ++ l') = datas l ++ datas l'.
Proof.
  induction l as [|x l IH]; [reflexivity|].
  destruct x as [| | | | | |[]| | | | | | | |]; simpl; rewrite ?IH; reflexivity.
Qed.


Section PipelineFacts.

Variable bulkReply : nat -> option EsError.
Variable refreshReply : option EsError * option Json.

Let step' := step sending_queue bulkReply refreshReply.
Let run' := run sending_queue bulkReply refreshReply.

Lemma run_stuck fuel s : step' s = None -> run' fuel s = s.
Proof.
  intros H. destruct fuel; [reflexivity|].
  unfold run', step' in *. simpl. now rewrite H.
Qed.

Lemma run_S fuel s s1 : step' s = Some s1 -> run' (S fuel) s = run' fuel s1.
Proof. intros H. unfold run', step' in *. simpl. now rewrite H. Qed.

Lemma run_add n m s : run' (n + m) s = run' m (run' n s).
Proof.
  revert s. induction n as [|n IH]; intros s; [reflexivity|].
  destruct (step' s) as [s1|] eqn:E.
  - simpl Nat.add. rewrite !(run_S _ _ _ E). apply IH.
  - rewrite (run_stuck (S n + m) s E), (run_stuck (S n) s E).
    now rewrite (run_stuck m s E).
Qed.

Lemma step_record_room eo B p d ds k r a :
  (B <=? length (p ++ [index_op eo d]))%nat = false ->
  step' (flowing_state eo B p (d :: ds) k r a)
  = Some (flowing_state eo B (p ++ [index_op eo d]) ds k r
            (a ++ [StreamPause; BulkerPush (index_op eo d);
                   SchemaEmit (EsBulkData d); StreamResume])).
Proof.
  intros H. unfold step', step, flowing_state, stream_step. simpl.
  rewrite (onData_exec _ _ false
             {| size := B; pending := p ++ [index_op eo d]; waiting := [];
                inFlight := None |} []).
  - reflexivity.
  - simpl. unfold Bulker_push. simpl. rewrite H. reflexivity.
Qed.

Lemma step_record_full eo B p d ds k r a :
  (B <=? length (p ++ [index_op eo d]))%nat = true ->
  step' (flowing_state eo B p (d :: ds) k r a)
  = Some (awaiting_state eo B (p ++ [index_op eo d]) ds k r
            (a ++ [StreamPause; BulkerPush (index_op eo d);
                   ClientBulk (p ++ [index_op eo d]);
                   SchemaEmit (EsBulkData d)])).
Proof.
  intros H. unfold step', step, flowing_state, stream_step. simpl.
  rewrite (onData_exec _ _ true
             {| size := B; pending := []; waiting := [];
                inFlight := Some (p ++ [index_op eo d]) |}
             [p ++ [index_op eo d]]).
  - reflexivity.
  - simpl. unfold Bulker_push. simpl. rewrite H. reflexivity.
Qed.

Lemma step_awaiting eo B b ds k r a :
  step' (awaiting_state eo B b ds k r a)
  = Some (flowing_state eo B [] ds (S k) r
            (a ++ [SchemaEmit (bulk_notification (bulkReply k) (length b));
                   StreamResume])).
Proof.
  unfold step', step, awaiting_state, flowing_state, bulk_step. simpl.
  destruct (bulkReply k); simpl; unfold with_bulker_state; sync_cbv;
    rewrite !app_nil_r, <- !app_assoc; reflexivity.
Qed.

Lemma step_close_filled eo B x p k r a :
  step' (flowing_state eo B (x :: p) [] k r a)
  = Some (flushing_state eo B (x :: p) k r
            (a ++ [BulkerFlush; ClientBulk (x :: p)])).
Proof.
  unfold step', step, flowing_state, flushing_state, stream_step. simpl.
  sync_cbv. rewrite <- !app_assoc. reflexivity.
Qed.

Lemma step_close_empty eo B k r a :
  step' (flowing_state eo B [] [] k r a)
  = Some (finalized_state eo B k r (a ++ finalize_calls eo)).
Proof.
  unfold step', step, flowing_state, finalized_state, stream_step. simpl.
  sync_cbv. rewrite <- !app_assoc. reflexivity.
Qed.

Lemma step_flushing eo B b k r a :
  step' (flushing_state eo B b k r a)
  = Some (finalized_state eo B (S k) r
            (a ++ SchemaEmit (bulk_notification (bulkReply k) (length b))
               :: finalize_calls eo)).
Proof.
  unfold step', step, flushing_state, finalized_state, bulk_step. simpl.
  destruct (bulkReply k); simpl; unfold with_bulker_state; sync_cbv;
    rewrite !app_nil_r, <- !app_assoc; reflexivity.
Qed.

Lemma step_finalized eo B k r a :
  step' (finalized_state eo B k r a)
  = if (r <? refreshes a)%nat
    then Some (finalized_state eo B k (S r)
                 (a ++ [Settle (fst refreshReply) (snd refreshReply)]))
    else None.
Proof.
  unfold step', step, finalized_state, refresh_ready. simpl.
  destruct (r <? refreshes a)%nat; reflexivity.
Qed.

Lemma step_finalized_ready eo B k r a :
  (r < refreshes a)%nat ->
  step' (finalized_state eo B k r a)
  = Some (finalized_state eo B k (S r)
            (a ++ [Settle (fst refreshReply) (snd refreshReply)])).
Proof.
  intros H. rewrite step_finalized.
  destruct (Nat.ltb_spec r (refreshes a)); [reflexivity | lia].
Qed.





(** The shapes the pipeline goes through. *)
Lemma shapes_run eo B docs :
  (0 < B)%nat ->
  forall fuel,
    let s := run' fuel (flowing_state eo B [] docs 0 0 []) in
    (exists p ds k a, (length p < B)%nat
                      /\ s = flowing_state eo B p ds k (refreshes a) a)
    \/ (exists b ds k a, s = awaiting_state eo B b ds k (refreshes a) a)
    \/ (exists b k a, s = flushing_state eo B b k (refreshes a) a)
    \/ (exists k r a, s = finalized_state eo B k r a).
Proof.
  intros HB fuel. cbn zeta.
  assert (forall s,
    ((exists p ds k a, (length p < B)%nat
                       /\ s = flowing_state eo B p ds k (refreshes a) a)
     \/ (exists b ds k a, s = awaiting_state eo B b ds k (refreshes a) a)
     \/ (exists b k a, s = flushing_state eo B b k (refreshes a) a)
     \/ (exists k r a, s = finalized_state eo B k r a)) ->
    forall s', step' s = Some s' ->
    ((exists p ds k a, (length p < B)%nat
                       /\ s' = flowing_state eo B p ds k (refreshes a) a)
     \/ (exists b ds k a, s' = awaiting_state eo B b ds k (refreshes a) a)
     \/ (exists b k a, s' = flushing_state eo B b k (refreshes a) a)
     \/ (exists k r a, s' = finalized_state eo B k r a))) as Hstep.
  { intros s [(p & ds & k & a & Hp & ->)|[(b & ds & k & a & ->)
              |[(b & k & a & ->)|(k & r & a & ->)]]] s' E.
    - destruct ds as [|d ds].
      + destruct p as [|x p].
        * rewrite step_close_empty in E. injection E as <-.
          do 3 right. eauto.
        * rewrite step_close_filled in E. injection E as <-.
          right; right; left.
          exists (x :: p), k, (a ++ [BulkerFlush; ClientBulk (x :: p)]).
          f_equal. rewrite refreshes_app. simpl. lia.
      + destruct (B <=? length (p ++ [index_op eo d]))%nat eqn:Hfull.
        * rewrite (step_record_full _ _ _ _ _ _ _ _ Hfull) in E.
          injection E as <-. right; left.
          eexists (p ++ [index_op eo d]), ds, k, (a ++ _).
          f_equal. rewrite refreshes_app. simpl. lia.
        * rewrite (step_record_room _ _ _ _ _ _ _ _ Hfull) in E.
          injection E as <-. left.
          eexists (p ++ [index_op eo d]), ds, k, (a ++ _).
          split; [apply Nat.leb_gt in Hfull; exact Hfull|].
          f_equal. rewrite refreshes_app. simpl. lia.
    - rewrite step_awaiting in E. injection E as <-. left.
      eexists [], ds, (S k), (a ++ _). split; [simpl; lia|].
      f_equal. rewrite refreshes_app.
      destruct (bulkReply k); simpl; lia.
    - rewrite step_flushing in E. injection E as <-. do 3 right. eauto.
    - rewrite step_finalized in E. destruct (r <? refreshes a)%nat;
        [|discriminate]. injection E as <-. do 3 right. eauto. }
  assert (forall n s,
    ((exists p ds k a, (length p < B)%nat
                       /\ s = flowing_state eo B p ds k (refreshes a) a)
     \/ (exists b ds k a, s = awaiting_state eo B b ds k (refreshes a) a)
     \/ (exists b k a, s = flushing_state eo B b k (refreshes a) a)
     \/ (exists k r a, s = finalized_state eo B k r a)) ->
    ((exists p ds k a, (length p < B)%nat
                       /\ run' n s = flowing_state eo B p ds k (refreshes a) a)
     \/ (exists b ds k a,
           run' n s = awaiting_state eo B b ds k (refreshes a) a)
     \/ (exists b k a, run' n s = flushing_state eo B b k (refreshes a) a)
     \/ (exists k r a, run' n s = finalized_state eo B k r a))) as Hrun.
  { induction n as [|n IH]; intros s Hs; [exact Hs|].
    destruct (step' s) as [s1|] eqn:E.
    - rewrite (run_S _ _ _ E). apply IH. exact (Hstep s Hs s1 E).
    - rewrite (run_stuck _ _ E). exact Hs. }
  apply Hrun. left. exists [], docs, 0, []. split; [simpl; lia | reflexivity].
Qed.

(** At every point of a run there is at most one kind of event that can
    happen next: the order in which [step] looks for events decides
    nothing. *)
Lemma one_event_at_a_time eo B docs fuel :
  (0 < B)%nat ->
  (ready_events (run' fuel (flowing_state eo B [] docs 0 0 [])) <= 1)%nat.
Proof.
  intros HB.
  destruct (shapes_run eo B docs HB fuel)
    as [(p & ds & k & a & Hp & ->)|[(b & ds & k & a & ->)
        |[(b & k & a & ->)|(k & r & a & ->)]]];
    unfold ready_events, stream_ready, bulk_ready, refresh_ready; simpl;
    rewrite ?Nat.ltb_irrefl; simpl; try lia.
  destruct (r <? refreshes a)%nat; lia.
Qed.


End PipelineFacts.

(** ** More on option resolution *)

Lemma resolve_index_result m w w' :
  resolve_index (OnModel m) w = (Ok tt, w') ->
  heap w' = heap w /\ log w' = log w
  /\ options w' = if Js.truthy_string (o_index (options w)) then options w
                  else with_index (collection_name m) (options w).
Proof.
  unfold resolve_index. intros H. run_step.
  - apply negb_true_iff in Heqb. rewrite Heqb. auto.
  - apply negb_false_iff in Heqb. rewrite Heqb. auto.
Qed.

Lemma resolve_type_result m w w' :
  resolve_type (OnModel m) w = (Ok tt, w') ->
  heap w' = heap w /\ log w' = log w
  /\ if Js.truthy_string (o_type (options w)) then options w' = options w
     else exists t, lcFirst (Some (modelName m)) = Ok t
                    /\ options w' = with_type t (options w).
Proof.
  unfold resolve_type. intros H. run_step.
  - apply negb_true_iff in Heqb. rewrite Heqb. simpl in *. eauto.
  - apply negb_false_iff in Heqb. rewrite Heqb. auto.
Qed.

Lemma resolve_client_result w r w' :
  resolve_client w = (r, w') ->
  log w' = log w
  /\ match o_client (options w) with
     | Some _ => w' = w
     | None => options w' = with_client (fresh (dom (heap w))) (options w)
               /\ heap w' = <[fresh (dom (heap w)) := ClientObj]> (heap w)
     end.
Proof.
  unfold resolve_client. intros H. run_step.
  - destruct (o_client (options w)); [discriminate | auto].
  - destruct (o_client (options w')); [auto | discriminate].
Qed.

Lemma resolve_bulker_result w r w' :
  resolve_bulker w = (r, w') ->
  log w' = log w
  /\ match o_bulk (options w) with
     | Some cfg =>
         options w' = with_bulker (fresh (dom (heap w))) (options w)
         /\ heap w' = <[fresh (dom (heap w)) :=
                         BulkerObj (o_client (options w)) (Some cfg)]> (heap w)
     | None => w' = w
     end.
Proof.
  unfold resolve_bulker. intros H. run_step.
  - destruct (o_bulk (options w)); [auto | discriminate].
  - destruct (o_bulk (options w')); [discriminate | auto].
Qed.

Lemma resolve_mapping_result m w w' :
  resolve_mapping (OnModel m) w = (Ok tt, w') ->
  heap w' = heap w /\ log w' = log w
  /\ match o_mapping (options w) with
     | Some _ => options w' = options w
     | None => exists p, generateMapping (Some (schema m)) = Ok p
                         /\ options w' = with_mapping {| properties := p |}
                                           (options w)
     end.
Proof.
  unfold resolve_mapping. intros H. run_step.
  - destruct (o_mapping (options w)); [discriminate|]. simpl in *. eauto.
  - destruct (o_mapping (options w')); [auto | discriminate].
Qed.

(** The steps of a call of [esOptions] on a model that returns. *)
Lemma esOptions_steps m w o w' :
  esOptions (OnModel m) w = (Ok o, w') ->
  exists w1 w2 w3 w4,
    resolve_index (OnModel m) w = (Ok tt, w1)
    /\ resolve_type (OnModel m) w1 = (Ok tt, w2)
    /\ resolve_client w2 = (Ok tt, w3)
    /\ resolve_bulker w3 = (Ok tt, w4)
    /\ resolve_mapping (OnModel m) w4 = (Ok tt, w')
    /\ o = options w'.
Proof.
  intros H. unfold esOptions in H.
  apply bind_Ok in H as ([] & w1 & H1 & H).
  apply bind_Ok in H as ([] & w2 & H2 & H).
  apply bind_Ok in H as ([] & w3 & H3 & H).
  apply bind_Ok in H as ([] & w4 & H4 & H).
  apply bind_Ok in H as ([] & w5 & H5 & H).
  run_step. exists w1, w2, w3, w4. repeat split; assumption.
Qed.

(** X1. On a model, [esOptions] fills what the options lack and nothing
    else: the index becomes the collection name when it is missing or
    empty, the type the model name as [lcFirst] returns it, the mapping
    the one generated from the schema, the client a new object; what is
    set is kept. *)
Theorem esOptions_defaults m w o w' :
  esOptions (OnModel m) w = (Ok o, w') ->
  o_index o = (if Js.truthy_string (o_index (options w))
               then o_index (options w) else Some (collection_name m))
  /\ (if Js.truthy_string (o_type (options w))
      then o_type o = o_type (options w)
      else exists t, lcFirst (Some (modelName m)) = Ok t /\ o_type o = Some t)
  /\ match o_client (options w) with
     | Some c => o_client o = Some c
     | None => o_client o = Some (fresh (dom (heap w)))
               /\ heap w !! fresh (dom (heap w)) = None
               /\ heap w' !! fresh (dom (heap w)) = Some ClientObj
     end
  /\ match o_mapping (options w) with
     | Some mp => o_mapping o = Some mp
     | None => exists p, generateMapping (Some (schema m)) = Ok p
                         /\ o_mapping o = Some {| properties := p |}
     end
  /\ o_bulk o = o_bulk (options w).
Proof.
  intros H.
  pose proof (esOptions_frame _ _ _ _ H) as (_ & Hbulk & _).
  apply esOptions_steps in H as (w1 & w2 & w3 & w4 & H1 & H2 & H3 & H4 & H5 & ->).
  apply resolve_index_result in H1 as (Hh1 & _ & Ho1).
  apply resolve_type_result in H2 as (Hh2 & _ & Ho2).
  pose proof (resolve_client_frame _ _ _ H3) as F3.
  apply resolve_client_result in H3 as (_ & Ho3).
  pose proof (resolve_bulker_frame _ _ _ H4) as F4.
  apply resolve_bulker_result in H4 as (_ & Ho4).
  pose proof (resolve_mapping_frame _ _ _ _ H5) as F5.
  apply resolve_mapping_result in H5 as (Hh5 & _ & Ho5).
  assert (o_type (options w1) = o_type (options w)
          /\ o_client (options w1) = o_client (options w)
          /\ o_mapping (options w1) = o_mapping (options w)) as (T1 & C1 & M1).
  { rewrite Ho1. destruct (Js.truthy_string (o_index (options w))); auto. }
  assert (o_index (options w2) = o_index (options w1)
          /\ o_client (options w2) = o_client (options w1)
          /\ o_mapping (options w2) = o_mapping (options w1)) as (I2 & C2 & M2).
  { rewrite T1 in Ho2. destruct (Js.truthy_string (o_type (options w))).
    - rewrite Ho2. auto.
    - destruct Ho2 as (t & _ & ->). auto. }
  assert (o_index (options w3) = o_index (options w2)
          /\ o_type (options w3) = o_type (options w2)
          /\ o_mapping (options w3) = o_mapping (options w2)) as (I3 & T3 & M3).
  { destruct (o_client (options w2)); [subst; auto|].
    destruct Ho3 as [-> _]. auto. }
  assert (o_index (options w4) = o_index (options w3)
          /\ o_type (options w4) = o_type (options w3)
          /\ o_client (options w4) = o_client (options w3)
          /\ o_mapping (options w4) = o_mapping (options w3))
    as (I4 & T4 & C4 & M4).
  { destruct (o_bulk (options w3)); [|subst; auto].
    destruct Ho4 as [-> _]. auto. }
  assert (o_index (options w') = o_index (options w4)
          /\ o_type (options w') = o_type (options w4)
          /\ o_client (options w') = o_client (options w4))
    as (I5 & T5 & C5).
  { destruct (o_mapping (options w4)); [rewrite Ho5; auto|].
    destruct Ho5 as (p & _ & ->). auto. }
  split; [|split; [|split; [|split]]].
  - rewrite I5, I4, I3, I2, Ho1.
    destruct (Js.truthy_string (o_index (options w))); reflexivity.
  - rewrite T5, T4, T3. rewrite T1 in Ho2.
    destruct (Js.truthy_string (o_type (options w))).
    + rewrite Ho2. assumption.
    + destruct Ho2 as (t & Ht & ->). eauto.
  - rewrite C5, C4. rewrite C2, C1 in Ho3. rewrite Hh2, Hh1 in Ho3.
    destruct (o_client (options w)) as [c|] eqn:Ec.
    + subst w3. congruence.
    + destruct Ho3 as [-> Hh3]. split; [reflexivity|].
      split; [apply fresh_lookup_None|].
      destruct F4 as (_ & _ & K4 & _). destruct F5 as (_ & _ & K5 & _).
      assert (heap w3 !! fresh (dom (heap w)) = Some ClientObj) as L3
        by (rewrite Hh3; apply lookup_insert_eq).
      assert (heap w4 !! fresh (dom (heap w)) = Some ClientObj) as L4
        by (rewrite K4; [exact L3 | rewrite L3; eauto]).
      rewrite K5; [exact L4 | rewrite L4; eauto].
  - rewrite M4, M3, M2, M1 in Ho5.
    destruct (o_mapping (options w)) as [mp|].
    + rewrite Ho5. congruence.
    + destruct Ho5 as (p & Hp & ->). eauto.
  - assumption.
Qed.



(** X3. Whatever the receiver, and whether it returns or throws, a call
    of [esOptions] makes no call on the client, keeps the bulk options and
    every object that exists, and overwrites neither a client, a mapping,
    nor a non-empty index or type that the options hold. *)
Theorem esOptions_keeps this w r w' :
  esOptions this w = (r, w') ->
  log w' = log w
  /\ o_bulk (options w') = o_bulk (options w)
  /\ (forall a, is_Some (heap w !! a) -> heap w' !! a = heap w !! a)
  /\ (forall c, o_client (options w) = Some c ->
                o_client (options w') = Some c)
  /\ (forall mp, o_mapping (options w) = Some mp ->
                 o_mapping (options w') = Some mp)
  /\ (Js.truthy_string (o_index (options w)) = true ->
      o_index (options w') = o_index (options w))
  /\ (Js.truthy_string (o_type (options w)) = true ->
      o_type (options w') = o_type (options w)).
Proof.
  intros H.
  destruct (esOptions_frame _ _ _ _ H) as (L & B & Hh & C & I & T & Mp & _).
  repeat split; assumption.
Qed.

(** X4. After a [refresh] on the model that found a non-empty index and
    type, the save hook no longer throws: it indexes the document under
    that index and type, and announces the answer. [refresh] itself makes
    one call, with the index and the type, and passes the answer on. *)
Theorem refresh_then_save reply m cb w calls w1 :
  refresh reply m cb w = (Ok calls, w1) ->
  Js.truthy_string (o_index (options w1)) = true ->
  Js.truthy_string (o_type (options w1)) = true ->
  calls = [IndicesRefresh (o_index (options w1)) (o_type (options w1));
           DeferCallback cb (fst reply) (snd reply)]
  /\ log w1 = log w
  /\ forall answer d, exists w2,
       postSave answer (Some d) w1 = (Ok tt, w2)
       /\ log w2 = log w
                   ++ [ClientIndex (o_client (options w1))
                         (o_index (options w1)) (o_type (options w1))
                         (doc_id d) (serialize d (o_mapping (options w1)));
                       DocEmit d "es-indexed" (fst answer) (snd answer)].
Proof.
  intros H Hi Ht. unfold refresh in H.
  apply bind_Ok in H as (o & w1' & E & H).
  cbv [mret M_ret] in H. inversion H; subst; clear H.
  pose proof (esOptions_Ok _ _ _ _ E) as (-> & Hc & Hm & _).
  pose proof (esOptions_frame _ _ _ _ E) as (L & _).
  split; [reflexivity|]. split; [assumption|].
  intros answer d.
  destruct (esOptions_resolved OnStatics w1 Hi Ht Hc Hm)
    as (w2 & E2 & L2 & I2 & T2 & C2 & Mp2).
  eexists. unfold postSave, indexDoc. cbv [mbind M_bind].
  rewrite E2. cbv [perform]. simpl.
  split; [reflexivity|]. simpl.
  rewrite L2, L, I2, T2, C2, Mp2, <- app_assoc. reflexivity.
Qed.

(** X6. Without a retry budget (zero, or negative) the delete is tried
    once and the callback gets what the engine answered, a 404 error
    included. *)
Theorem delete_without_budget reply attempt options document callback retry :
  (retry <= 0)%Z ->
  deleteByMongoId reply attempt options document callback retry
  = delete_call options document :: callback (reply attempt).
Proof.
  intros H. destruct (reply attempt) as [err|] eqn:E.
  - destruct (notFound err) eqn:Hn.
    + now apply delete_exhausted.
    + now apply delete_other.
  - now apply delete_success.
Qed.

(** ** More on the handlers *)

Lemma pushes_app (l l' : list Action) :
  pushes (l ++ l') = pushes l ++ pushes l'.
Proof.
  induction l as [|x l IH]; [reflexivity|].
  destruct x; simpl; rewrite ?IH; reflexivity.
Qed.

Lemma pushes_bulk (out : list (list Operation)) :
  pushes (map ClientBulk out) = [].
Proof. induction out; [reflexivity | assumption]. Qed.

Lemma datas_bulk (out : list (list Operation)) :
  datas (map ClientBulk out) = [].
Proof. induction out; [reflexivity | assumption]. Qed.

Lemma notes_app (l l' : list Action) : notes (l ++ l') = notes l ++ notes l'.
Proof.
  induction l as [|x l IH]; [reflexivity|].
  destruct x as [| | | | | |[]| | | | | | | |]; simpl; rewrite ?IH;
    reflexivity.
Qed.

Section MoreHandlerFacts.

Context {Q : Type} {BQ : BulkQueue Q}.

(** What one event adds: a record is pushed and announced, once; no other
    event pushes or announces a record; the options stay. *)
Lemma deliver_record (ev : Event) (s : Sync Q) :
  let s' := exec (deliver ev) s in
  sy_options s' = sy_options s
  /\ pushes (acts s')
     = pushes (acts s) ++ map (index_op (sy_options s)) (records [ev])
  /\ datas (acts s') = datas (acts s) ++ records [ev].
Proof.
  cbn zeta. pose proof (deliver_cases ev s) as H.
  destruct ev as [doc| |n|e|e r]; rewrite H; clear H.
  - destruct (push (index_op (sy_options s) doc) (bulker s))
      as [[sending q'] out] eqn:E.
    rewrite (onData_exec _ _ _ _ _ E). cbn [sy_options acts].
    split; [reflexivity|].
    rewrite pushes_app, datas_app. simpl.
    rewrite pushes_app, datas_app, pushes_bulk, datas_bulk.
    destruct sending; auto.
  - rewrite onClose_exec. destruct (filled (bulker s)); cbn [sy_options acts];
      rewrite pushes_app, datas_app; simpl;
      rewrite ?pushes_bulk, ?datas_bulk, !app_nil_r; auto.
  - destruct (onSent_on s); [|simpl; rewrite !app_nil_r; auto].
    rewrite onSent_exec. destruct (streamClosed s); cbn [sy_options acts];
      rewrite pushes_app, datas_app; simpl; rewrite !app_nil_r; auto.
  - destruct (onError_on s); [|simpl; rewrite !app_nil_r; auto].
    rewrite onError_exec. destruct (streamClosed s); cbn [sy_options acts];
      rewrite pushes_app, datas_app; simpl; rewrite !app_nil_r; auto.
  - rewrite onRefreshed_exec. cbn [sy_options acts].
    rewrite pushes_app, datas_app. simpl. rewrite !app_nil_r. auto.
Qed.

Lemma records_cons (ev : Event) (evs : list Event) :
  records (ev :: evs) = records [ev] ++ records evs.
Proof. destruct ev; reflexivity. Qed.

(** X7. Over any sequence of events, with any queue, the operations
    pushed are the index operations of the records the stream emitted, one
    for each record and in the order of the stream, and the records
    announced by [es-bulk-data] are those records in that order: no record
    is skipped, none is pushed or announced twice. *)
Theorem records_pushed_in_order (evs : list Event) (s : Sync Q) :
  pushes (acts (deliver_all evs s))
  = pushes (acts s) ++ map (index_op (sy_options s)) (records evs)
  /\ datas (acts (deliver_all evs s)) = datas (acts s) ++ records evs
  /\ sy_options (deliver_all evs s) = sy_options s.
Proof.
  revert s. induction evs as [|ev evs IH]; intros s.
  - simpl. rewrite !app_nil_r. auto.
  - rewrite deliver_all_cons.
    destruct (deliver_record ev s) as (Ho & Hp & Hd). cbn zeta in *.
    destruct (IH (exec (deliver ev) s)) as (Hp' & Hd' & Ho').
    rewrite Hp', Hd', Ho', Hp, Hd, Ho, (records_cons ev evs), map_app,
      <- !app_assoc.
    repeat split; reflexivity.
Qed.

End MoreHandlerFacts.

(** ** More on the pipeline *)

Lemma sent_total_answers bulkReply k (bs : list (list Operation)) :
  (forall i, bulkReply i = None) ->
  sent_total (answers bulkReply k bs) = length (concat bs).
Proof.
  intros Hok. revert k. induction bs as [|b bs IH]; intros k; [reflexivity|].
  simpl. rewrite Hok, length_app. simpl. now rewrite IH.
Qed.

Section MorePipelineFacts.

Variable bulkReply : nat -> option EsError.
Variable refreshReply : option EsError * option Json.

Let stepS := step sending_queue bulkReply refreshReply.
Let runS := run sending_queue bulkReply refreshReply.

(** X8. While the pipeline runs, with a queue whose [push] answers
    [sending]: the queue never holds a full batch, no batch ever waits
    behind another, the stream emits nothing while a bulk call is in
    flight, and at most one kind of event can happen next. *)
Theorem pipeline_backpressure (B : nat) eo docs fuel :
  (0 < B)%nat ->
  let s := runS fuel
             (system_start eo
                (Bulker_new (Some {| batch := Some (Z.of_nat B) |})) docs) in
  (length (pending (bulker (ctl s))) < B)%nat
  /\ waiting (bulker (ctl s)) = []
  /\ (is_Some (inFlight (bulker (ctl s))) -> stream_ready s = false)
  /\ (ready_events s <= 1)%nat.
Proof.
  intros HB. rewrite (Bulker_new_size B HB). cbn zeta.
  change (system_start eo
            {| size := B; pending := []; waiting := []; inFlight := None |}
            docs)
    with (flowing_state eo B [] docs 0 0 []).
  pose proof (one_event_at_a_time bulkReply refreshReply eo B docs fuel HB)
    as Hone.
  fold runS in Hone |- *.
  destruct (shapes_run bulkReply refreshReply eo B docs HB fuel)
    as [(p & ds & k & a & Hp & E)|[(b & ds & k & a & E)
        |[(b & k & a & E)|(k & r & a & E)]]];
    fold runS in E; rewrite E in Hone |- *; simpl;
    (split; [assumption || lia|]); (split; [reflexivity|]);
    (split; [|exact Hone]).
  - intros [x Hx]. discriminate.
  - reflexivity.
  - reflexivity.
  - intros [x Hx]. discriminate.
Qed.

Lemma flowing_run_notes eo B docs :
  (0 < B)%nat ->
  forall p k a, (length p < B)%nat ->
  exists fuel a' k',
    runS fuel (flowing_state eo B p docs k (refreshes a) a)
    = finalized_state eo B k' (S (refreshes a)) a'
    /\ refreshes a' = S (refreshes a)
    /\ notes a'
       = notes a ++ answers bulkReply k
                      (batches B p (map (index_op eo) docs)).
Proof.
  intros HB. induction docs as [|d ds IH]; intros p k a Hp.
  - destruct p as [|x p].
    + exists 2, ((a ++ finalize_calls eo)
                 ++ [Settle (fst refreshReply) (snd refreshReply)]), k.
      assert (refreshes a < refreshes (a ++ finalize_calls eo))%nat as Hlt
        by (rewrite refreshes_app; simpl; lia).
      split; [|split].
      * unfold runS.
        rewrite (run_S _ _ _ _ _ (step_close_empty _ _ _ _ _ _ _)).
        rewrite (run_S _ _ _ _ _
                   (step_finalized_ready _ _ _ _ _ _ _ Hlt)).
        reflexivity.
      * rewrite !refreshes_app. simpl. lia.
      * rewrite !notes_app. simpl. now rewrite !app_nil_r.
    + exists 3,
        (((a ++ [BulkerFlush; ClientBulk (x :: p)])
          ++ SchemaEmit (bulk_notification (bulkReply k) (length (x :: p)))
             :: finalize_calls eo)
         ++ [Settle (fst refreshReply) (snd refreshReply)]), (S k).
      assert (refreshes a
              < refreshes
                  ((a ++ [BulkerFlush; ClientBulk (x :: p)])
                   ++ SchemaEmit (bulk_notification (bulkReply k)
                                    (length (x :: p)))
                      :: finalize_calls eo))%nat as Hlt
        by (rewrite !refreshes_app; destruct (bulkReply k); simpl; lia).
      split; [|split].
      * unfold runS.
        rewrite (run_S _ _ _ _ _ (step_close_filled _ _ _ _ _ _ _ _ _)).
        rewrite (run_S _ _ _ _ _ (step_flushing _ _ _ _ _ _ _ _)).
        rewrite (run_S _ _ _ _ _
                   (step_finalized_ready _ _ _ _ _ _ _ Hlt)).
        reflexivity.
      * rewrite !refreshes_app. destruct (bulkReply k); simpl; lia.
      * rewrite !notes_app. simpl.
        destruct (bulkReply k); simpl; now rewrite !app_nil_r.
  - simpl map. simpl batches.
    destruct (B <=? length (p ++ [index_op eo d]))%nat eqn:Hfull.
    + set (a2 := (a ++ [StreamPause; BulkerPush (index_op eo d);
                        ClientBulk (p ++ [index_op eo d]);
                        SchemaEmit (EsBulkData d)])
                 ++ [SchemaEmit (bulk_notification (bulkReply k)
                                   (length (p ++ [index_op eo d])));
                     StreamResume]).
      assert (refreshes a2 = refreshes a) as Ha2.
      { unfold a2. rewrite !refreshes_app. simpl.
        destruct (bulkReply k); simpl; lia. }
      destruct (IH [] (S k) a2) as (fuel & a' & k' & Hrun & Hr & Hn);
        [simpl; lia|].
      exists (S (S fuel)), a', k'. split; [|split].
      * unfold runS in *.
        rewrite (run_S _ _ _ _ _
                   (step_record_full _ _ _ _ _ _ _ _ _ _ Hfull)).
        rewrite (run_S _ _ _ _ _ (step_awaiting _ _ _ _ _ _ _ _ _)).
        fold a2. rewrite <- Ha2. exact Hrun.
      * congruence.
      * rewrite Hn. unfold a2. rewrite !notes_app. simpl.
        destruct (bulkReply k); simpl; rewrite !app_nil_r, <- ?app_assoc;
          reflexivity.
    + set (a1 := a ++ [StreamPause; BulkerPush (index_op eo d);
                       SchemaEmit (EsBulkData d); StreamResume]).
      assert (refreshes a1 = refreshes a) as Ha1.
      { unfold a1. rewrite !refreshes_app. simpl. lia. }
      destruct (IH (p ++ [index_op eo d]) k a1)
        as (fuel & a' & k' & Hrun & Hr & Hn).
      { apply Nat.leb_gt in Hfull. assumption. }
      exists (S fuel), a', k'. split; [|split].
      * unfold runS in *.
        rewrite (run_S _ _ _ _ _
                   (step_record_room _ _ _ _ _ _ _ _ _ _ Hfull)).
        fold a1. rewrite <- Ha1. exact Hrun.
      * congruence.
      * rewrite Hn. unfold a1. rewrite !notes_app. simpl.
        rewrite app_nil_r. reflexivity.
Qed.

(** X9. With a queue whose [push] answers [sending], the pipeline runs
    to its end and every bulk call is answered by one notification, in the
    order of the calls: [es-bulk-sent] with the number of operations of
    the batch, or [es-bulk-error] when the call failed. When no bulk call
    fails the numbers announced add up to the number of records. *)
Theorem pipeline_notifications (B : nat) eo docs :
  (0 < B)%nat ->
  exists fuel,
    let s' := runS fuel
                (system_start eo
                   (Bulker_new (Some {| batch := Some (Z.of_nat B) |}))
                   docs) in
    stepS s' = None
    /\ notes (acts (ctl s'))
       = answers bulkReply 0 (batches B [] (map (index_op eo) docs))
    /\ ((forall i, bulkReply i = None) ->
        sent_total (notes (acts (ctl s'))) = length docs).
Proof.
  intros HB. rewrite (Bulker_new_size B HB).
  destruct (flowing_run_notes eo B docs HB [] 0 [])
    as (fuel & a' & k' & Hrun & Hr & Hn); [simpl; lia|].
  exists fuel. cbn zeta.
  change (system_start eo
            {| size := B; pending := []; waiting := []; inFlight := None |}
            docs)
    with (flowing_state eo B [] docs 0 (refreshes []) []).
  rewrite Hrun. split; [|split].
  - unfold stepS. rewrite step_finalized, Hr, Nat.ltb_irrefl. reflexivity.
  - exact Hn.
  - intros Hok. unfold finalized_state. cbn [ctl acts]. rewrite Hn. simpl.
    rewrite (sent_total_answers _ _ _ Hok), batches_concat. simpl.
    apply length_map.
Qed.

End MorePipelineFacts.

(** ** The static functions *)

(** X10. [createMapping] puts the mapping exactly when the index exists
    or was created, and then last before settling; it creates the index
    only when the engine says it does not exist; and it uses the [defer]
    once, as its last call: [reject] with the error of the call that
    failed, [callback] with the answer to [putMapping] otherwise. It
    starts by asking whether the index exists, and logs nothing. *)
Theorem createMapping_calls existsReply createReply putReply m args w calls w' :
  createMapping existsReply createReply putReply m args w = (Ok calls, w') ->
  count_calls is_put calls
  = match existsReply, createReply with
    | (None, true), _ | (None, false), None => 1
    | _, _ => 0
    end
  /\ count_calls is_create calls
     = match existsReply with (None, false) => 1 | _ => 0 end
  /\ count_calls is_defer calls = 1
  /\ last calls
     = Some match existsReply, createReply with
            | (Some err, _), _ | (None, false), Some err =>
                DeferReject (snd (createMapping_args args)) err
            | _, _ =>
                DeferCallback (snd (createMapping_args args))
                  (fst putReply) (snd putReply)
            end
  /\ head calls = Some (IndicesExists (o_index (options w')))
  /\ (count_calls is_put calls = 1 ->
      exists pre, calls = pre ++ [put_mapping (options w');
                                  DeferCallback (snd (createMapping_args args))
                                    (fst putReply) (snd putReply)])
  /\ log w' = log w.
Proof.
  intros H. unfold createMapping in H.
  destruct (createMapping_args args) as [settings callback].
  apply bind_Ok in H as (o & w1 & E & H).
  cbv [mret M_ret] in H. inversion H; subst; clear H.
  pose proof (esOptions_Ok _ _ _ _ E) as (-> & _).
  pose proof (esOptions_frame _ _ _ _ E) as (L & _).
  destruct existsReply as [[e|] []]; destruct createReply as [c|];
    cbn; repeat split; try assumption; try discriminate.
  - intros _. exists [IndicesExists (o_index (options w'))]. reflexivity.
  - intros _. exists [IndicesExists (o_index (options w'))]. reflexivity.
  - intros _. exists [IndicesExists (o_index (options w'));
                      IndicesCreate (o_index (options w')) settings].
    reflexivity.
Qed.

(** X11. Called with fewer than two arguments, [createMapping] takes its
    only argument as the callback, also when it is a settings object, and
    creates a missing index with the settings [{}]. *)
Theorem createMapping_single_argument existsReply createReply putReply
    m args w calls w' :
  (length args < 2)%nat ->
  createMapping existsReply createReply putReply m args w = (Ok calls, w') ->
  (forall index body, In (IndicesCreate index body) calls ->
                      body = VObject empty_object)
  /\ (forall cb err res, In (DeferCallback cb err res) calls ->
                         cb = nth 0 args VUndefined)
  /\ (forall cb err, In (DeferReject cb err) calls ->
                     cb = nth 0 args VUndefined).
Proof.
  intros Hlen H. unfold createMapping, createMapping_args in H.
  destruct (Nat.ltb_spec (length args) 2); [|lia].
  apply bind_Ok in H as (o & w1 & E & H).
  cbv [mret M_ret] in H. inversion H; subst; clear H.
  destruct existsReply as [[e|] []]; destruct createReply as [c|];
    repeat split; intros; simpl in *;
    repeat match goal with
           | H : _ \/ _ |- _ => destruct H
           | H : False |- _ => destruct H
           | H : _ = _ |- _ => first [discriminate H | injection H as <-; subst]
           end;
    try reflexivity; try congruence.
Qed.

(** X12. [search] makes one call, under the index and the type of the
    options, and passes the answer on to the callback, which is the first
    function among the arguments. A non-empty string is sent as [q]; an
    object whose [query] is set is sent as the body, as it is; any other
    object is sent as [{query: object}]; and no query at all, or an empty
    string, as [{query: {}}]. *)
Theorem search_query_forms reply m query opts callback w calls w' :
  search reply m query opts callback w = (Ok calls, w') ->
  exists params,
    calls = [ClientSearch params;
             DeferCallback (if is_function query then query
                            else if is_function opts then opts
                            else callback)
               (fst reply) (snd reply)]
    /\ sp_index params = o_index (options w')
    /\ sp_type params = o_type (options w')
    /\ match query with
       | VString (String c s) =>
           sp_q params = Some (String c s) /\ sp_body params = None
       | VObject o =>
           sp_q params = None
           /\ sp_body params = Some (if obj_query o then BodyAsIs o
                                     else BodyQuery (VObject o))
       | _ =>
           sp_q params = None
           /\ sp_body params = Some (BodyQuery (VObject empty_object))
       end.
Proof.
  intros H. unfold search in H.
  destruct (search_args query opts callback) as [[q' o'] cb'] eqn:A.
  apply bind_Ok in H as (o & w1 & E & H).
  cbv [mret M_ret] in H. inversion H; subst; clear H.
  pose proof (esOptions_Ok _ _ _ _ E) as (-> & _).
  exists (search_params (options w') q').
  unfold search_args in A.
  destruct query as [| |[|c s]|qo|f]; destruct opts as [| |so|oo|g];
    simpl in A; inversion A; subst; clear A; simpl;
    repeat split; try reflexivity;
    destruct (obj_query qo); reflexivity.
Qed.

(** X13. [search] never uses its options: two calls that differ in the
    options only make the same call. A callback given in the place of the
    query, or of the options, is the same as the full form with an empty
    query and empty options. *)
Theorem search_options_ignored reply m query callback w :
  (forall o1 o2, is_function o1 = false -> is_function o2 = false ->
     is_function query = false ->
     search reply m query o1 callback w = search reply m query o2 callback w)
  /\ (forall f o c,
        search reply m (VFunction f) o c w
        = search reply m (VObject empty_object) (VObject empty_object)
            (VFunction f) w)
  /\ (forall f c, is_function query = false ->
        search reply m query (VFunction f) c w
        = search reply m query (VObject empty_object) (VFunction f) w).
Proof.
  split; [|split].
  - intros o1 o2 H1 H2 Hq. unfold search, search_args.
    rewrite Hq, H1, H2. reflexivity.
  - intros f o c. reflexivity.
  - intros f c Hq. unfold search, search_args. rewrite Hq. reflexivity.
Qed.

(** X14. [synchronize] takes the first function among its first three
    arguments as the callback and drops what follows it: the stream is
    opened with [null] for those arguments, with [{}] for missing
    conditions, and never with a function. *)
Theorem esSynchronize_arguments m c p o cb w cb' eo b w' :
  esSynchronize m c p o cb w = (Ok (cb', eo, b), w') ->
  exists conditions projection opts,
    log w' = log w ++ [Find conditions projection opts (batchOf eo);
                       BulkerOn b OnError; BulkerOn b OnSent]
    /\ (is_function c = true ->
        cb' = c /\ conditions = "{}"%string /\ projection = None
        /\ opts = None)
    /\ (is_function c = false ->
        conditions = default "{}"%string (truthy_json c)
        /\ (is_function p = true ->
            cb' = p /\ projection = None /\ opts = None)
        /\ (is_function p = false ->
            projection = json_of p
            /\ (is_function o = true -> cb' = o /\ opts = None)
            /\ (is_function o = false -> cb' = cb /\ opts = json_of o))).
Proof.
  intros H. unfold esSynchronize in H.
  destruct (synchronize_args c p o cb) as [[[c1 p1] o1] cb1] eqn:A.
  apply bind_Ok in H as ([eo1 b1] & w1 & S & H).
  cbv [mret M_ret] in H. inversion H; subst; clear H.
  apply synchronize_Ok in S as (v & E & _ & _ & L).
  pose proof (esOptions_frame _ _ _ _ E) as (L1 & _).
  exists (default "{}"%string (truthy_json c1)), (json_of p1), (json_of o1).
  split; [rewrite L, L1; reflexivity|].
  unfold synchronize_args in A.
  destruct (is_function c) eqn:Fc; [|destruct (is_function p) eqn:Fp;
    [|destruct (is_function o) eqn:Fo]];
    inversion A; subst; clear A;
    repeat split; intros; try discriminate; try reflexivity.
Qed.

(** ** More on the set-up and the end of a synchronization *)


Lemma resumes_app (l l' : list Action) :
  resumes (l ++ l') = resumes l + resumes l'.
Proof.
  induction l as [|x l IH]; [reflexivity|].
  destruct x; simpl; rewrite ?IH; reflexivity.
Qed.

Lemma resumes_bulk (out : list (list Operation)) :
  resumes (map ClientBulk out) = 0.
Proof. induction out; [reflexivity | assumption]. Qed.

Section ClosedFacts.

Context {Q : Type} {BQ : BulkQueue Q}.

(** X16. Once the stream has closed, no event of the queue and no answer
    to the refresh call resumes it, and it stays closed. *)
Theorem closed_never_resumes (evs : list Event) (s : Sync Q) :
  streamClosed s = true ->
  forallb (fun ev => negb (is_stream_event ev)) evs = true ->
  resumes (acts (deliver_all evs s)) = resumes (acts s)
  /\ streamClosed (deliver_all evs s) = true
  /\ paused (deliver_all evs s) = paused s.
Proof.
  revert s. induction evs as [|ev evs IH]; intros s Hc Hevs; [auto|].
  simpl in Hevs. apply andb_prop in Hevs as [Hev Hevs].
  apply negb_true_iff in Hev. rewrite deliver_all_cons.
  assert (resumes (acts (exec (deliver ev) s)) = resumes (acts s)
          /\ streamClosed (exec (deliver ev) s) = true
          /\ paused (exec (deliver ev) s) = paused s) as (R & C & P).
  { pose proof (deliver_cases ev s) as H.
    destruct ev as [doc| |n|e|e r]; try discriminate; rewrite H; clear H.
    - destruct (onSent_on s); [|auto].
      rewrite onSent_exec, Hc. cbn [acts streamClosed paused].
      rewrite resumes_app. simpl. auto.
    - destruct (onError_on s); [|auto].
      rewrite onError_exec, Hc. cbn [acts streamClosed paused].
      rewrite resumes_app. simpl. auto.
    - rewrite onRefreshed_exec. cbn [acts streamClosed paused].
      rewrite resumes_app. simpl. auto. }
  destruct (IH _ C Hevs) as (R' & C' & P').
  repeat split; congruence.
Qed.

End ClosedFacts.

End Plugin.

(** ** Examples: the theorems at concrete inputs *)

(** C1: with the queue that answers [accepted], the first record of a
    batch of two is accepted, [push] returns [true], and the stream is left
    paused. *)
Lemma onData_accepted_not_resumed :
  fst (fst (push (BulkQueue := accepted_queue)
              (index_op Sample.serialize Sample.resolved Sample.doc1)
              (Bulker_new (Some {| batch := Some 2%Z |})))) = true
  /\ paused (exec (onData (BQ := accepted_queue) Sample.serialize Sample.doc1)
               (sync_start Sample.resolved
                  (Bulker_new (Some {| batch := Some 2%Z |})))) = true
  /\ ~ In StreamResume
         (acts (exec (onData (BQ := accepted_queue) Sample.serialize
                        Sample.doc1)
                  (sync_start Sample.resolved
                     (Bulker_new (Some {| batch := Some 2%Z |}))))).
Proof.
  split; [vm_compute; reflexivity|]. split; [vm_compute; reflexivity|].
  vm_compute. intros [H|[H|[H|[]]]]; discriminate.
Qed.

Lemma onData_pause_push_resume_witness :
  acts (exec (onData (BQ := sending_queue) Sample.serialize Sample.doc1)
          (sync_start Sample.resolved
             (Bulker_new (Some {| batch := Some 2%Z |}))))
  = [StreamPause;
     BulkerPush (index_op Sample.serialize Sample.resolved Sample.doc1);
     SchemaEmit (EsBulkData Sample.doc1); StreamResume].
Proof.
  pose proof (proj1 (onData_pause_push_resume Sample.serialize
                  (BQ := sending_queue)
                  (sync_start Sample.resolved
                     (Bulker_new (Some {| batch := Some 2%Z |})))
                  Sample.doc1 [])) as H.
  vm_compute in H. vm_compute. exact H.
Defined.

Lemma bulk_error_is_reported_witness :
  onError_on (sync_start (Q := Bulker) Sample.resolved (Bulker_new None))
  = true
  /\ acts (exec (deliver (BQ := sending_queue) Sample.serialize
                   (BulkerError Sample.e503))
             (sync_start Sample.resolved (Bulker_new None)))
     = [SchemaEmit (EsBulkError Sample.e503); StreamResume].
Proof.
  split; [reflexivity|].
  pose proof (proj1 (bulk_error_is_reported Sample.serialize
                  (BQ := sending_queue)
                  (sync_start Sample.resolved (Bulker_new None))
                  Sample.e503 [] eq_refl)) as H.
  vm_compute in H. vm_compute. exact H.
Defined.

Lemma close_finalizes_once_witness :
  streamClosed (sync_start (Q := Bulker) Sample.resolved (Bulker_new None))
  = false
  /\ refreshes
       (acts (deliver_all (BQ := sending_queue) Sample.serialize
                [StreamData Sample.doc1; StreamClose; BulkerSent 1;
                 Refreshed None None]
                (sync_start Sample.resolved (Bulker_new None))))
     = 1.
Proof.
  split; [reflexivity|].
  pose proof (close_finalizes_once Sample.serialize (BQ := sending_queue)
                (sync_start Sample.resolved (Bulker_new None))
                [StreamData Sample.doc1] [BulkerSent 1; Refreshed None None]
                eq_refl eq_refl eq_refl eq_refl eq_refl) as H.
  vm_compute in H. destruct H as (_ & _ & _ & _ & _ & H & _).
  vm_compute. exact H.
Defined.

Lemma retryable_delete_budget_witness :
  notFound Sample.e404 = true
  /\ deleteByMongoId (failing_times 2 Sample.e404) 0 Sample.resolved
       Sample.doc1 (fun err => [Settle err None]) 3
     = [ClientDelete (Some 0) (Some "books"%string) (Some "book"%string) "1";
        SetTimeout 500;
        ClientDelete (Some 0) (Some "books"%string) (Some "book"%string) "1";
        SetTimeout 500;
        ClientDelete (Some 0) (Some "books"%string) (Some "book"%string) "1";
        Settle None None].
Proof.
  split; [reflexivity|].
  pose proof (proj1 (retryable_delete_budget Sample.lcFirst
                       Sample.generateMapping 2 3 Sample.e404
                       Sample.resolved Sample.doc1
                       (fun err => [Settle err None]) eq_refl)) as H.
  exact (H ltac:(lia)).
Defined.

Lemma delete_failure_paths_witness :
  failing_times 1 Sample.e503 0 = Some Sample.e503
  /\ deleteByMongoId (failing_times 1 Sample.e503) 0 Sample.resolved
       Sample.doc1 (fun err => [Settle err None]) 3
     = [ClientDelete (Some 0) (Some "books"%string) (Some "book"%string) "1";
        Settle (Some Sample.e503) None].
Proof.
  split; [reflexivity|].
  apply (proj2 (delete_failure_paths (failing_times 1 Sample.e503) 0
                  Sample.resolved Sample.doc1
                  (fun err => [Settle err None]) 3 Sample.e503 eq_refl)).
  intros Hc. apply notFound_contains in Hc. discriminate.
Defined.

Lemma delete_terminates_witness :
  (0 <= 3)%Z
  /\ exists (n : nat) (outcome : option EsError),
       (Z.of_nat n <= 3)%Z
       /\ deleteByMongoId (failing_times 5 Sample.e404) 0 Sample.resolved
            Sample.doc1 (fun err => [Settle err None]) 3
          = retries n Sample.resolved Sample.doc1
            ++ delete_call Sample.resolved Sample.doc1
               :: [Settle outcome None].
Proof.
  split; [lia|].
  exact (proj1 (delete_terminates (failing_times 5 Sample.e404) 0
                  Sample.resolved Sample.doc1
                  (fun err => [Settle err None]) 3 ltac:(lia))).
Defined.

(** C6: two calls of [esOptions] with bulk options set yield two bulkers,
    at the addresses 1 and 2. *)
Lemma esOptions_bulker_not_shared :
  match esOptions Sample.lcFirst Sample.generateMapping
          (OnModel Sample.book) (Sample.world (Sample.with_bulk 50)) with
  | (Ok o1, w1) =>
      match esOptions Sample.lcFirst Sample.generateMapping
              (OnModel Sample.book) w1 with
      | (Ok o2, _) =>
          o_bulker o1 = Some 1 /\ o_bulker o2 = Some 2
          /\ o_bulker o1 <> o_bulker o2
      | _ => False
      end
  | _ => False
  end.
Proof. vm_compute. repeat split; discriminate. Qed.

Lemma esOptions_bulker_fresh_witness :
  exists o w',
    o_bulk (options (Sample.world (Sample.with_bulk 50)))
    = Some {| batch := Some 50%Z |}
    /\ esOptions Sample.lcFirst Sample.generateMapping (OnModel Sample.book)
         (Sample.world (Sample.with_bulk 50)) = (Ok o, w')
    /\ exists b, o_bulker o = Some b
                 /\ heap (Sample.world (Sample.with_bulk 50)) !! b = None
                 /\ heap w' !! b
                    = Some (BulkerObj (o_client o)
                              (Some {| batch := Some 50%Z |})).
Proof.
  eexists _, _. split; [reflexivity|].
  split; [vm_compute; reflexivity|].
  refine (proj1 (esOptions_bulker_fresh Sample.lcFirst
                   Sample.generateMapping (OnModel Sample.book)
                   (Sample.world (Sample.with_bulk 50)) _ _
                   {| batch := Some 50%Z |} eq_refl _)).
  vm_compute. reflexivity.
Defined.

(** C8: the plugin is registered with a client only and a document is
    saved before any static function was called. *)
Lemma hooks_throw_without_index_witness :
  Js.truthy_string (o_index (options (Sample.world Sample.client_only)))
  = false
  /\ postSave Sample.lcFirst Sample.generateMapping Sample.serialize
       (None, Some "created"%string) (Some Sample.doc1)
       (Sample.world Sample.client_only)
     = (Throw (TypeError "Cannot read property 'name' of undefined"),
        Sample.world Sample.client_only)
  /\ postRemove Sample.lcFirst Sample.generateMapping (fun _ => None)
       (Some Sample.doc1) (Sample.world Sample.client_only)
     = (Throw (TypeError "Cannot read property 'name' of undefined"),
        Sample.world Sample.client_only).
Proof.
  split; [reflexivity|].
  pose proof (hooks_throw_without_index Sample.lcFirst
                Sample.generateMapping Sample.serialize
                (Sample.world Sample.client_only) Sample.doc1 eq_refl)
    as [Hsave Hremove].
  split; [apply Hsave | apply Hremove].
Defined.

Lemma synchronize_read_batch_witness :
  exists o b w',
    synchronize Sample.lcFirst Sample.generateMapping Sample.book
      None None None (Sample.world (Sample.with_bulk 20)) = (Ok (o, b), w')
    /\ batchOf o = 20%Z
    /\ log w' = [Find "{}" None None 20; BulkerOn b OnError;
                 BulkerOn b OnSent].
Proof.
  eexists _, _, _. split; [vm_compute; reflexivity|].
  assert (synchronize Sample.lcFirst Sample.generateMapping Sample.book
            None None None (Sample.world (Sample.with_bulk 20))
          = (Ok (_, _), _)) as E by (vm_compute; reflexivity).
  pose proof (synchronize_read_batch _ _ _ _ _ _ _ _ _ _ E)
    as (Hlog & Hset & _).
  split.
  - apply (Hset 20%Z); [reflexivity | discriminate].
  - vm_compute in Hlog. vm_compute. exact Hlog.
Defined.



(** ** Examples: the further theorems at concrete inputs *)

Lemma esOptions_defaults_witness :
  exists o w',
    esOptions Sample.lcFirst Sample.generateMapping (OnModel Sample.book)
      (Sample.world Sample.client_only) = (Ok o, w')
    /\ o_index o = Some "books"%string.
Proof.
  eexists _, _. split; [vm_compute; reflexivity|].
  assert (esOptions Sample.lcFirst Sample.generateMapping
            (OnModel Sample.book) (Sample.world Sample.client_only)
          = (Ok _, _)) as E by (vm_compute; reflexivity).
  pose proof (proj1 (esOptions_defaults _ _ _ _ _ _ E)) as H.
  vm_compute in H. vm_compute. exact H.
Defined.


Lemma esOptions_keeps_witness :
  exists r w',
    esOptions Sample.lcFirst Sample.generateMapping OnStatics
      (Sample.world Sample.resolved) = (r, w')
    /\ log w' = log (Sample.world Sample.resolved).
Proof.
  eexists _, _. split; [vm_compute; reflexivity|].
  assert (esOptions Sample.lcFirst Sample.generateMapping OnStatics
            (Sample.world Sample.resolved) = (_, _)) as E
      by (vm_compute; reflexivity).
  exact (proj1 (esOptions_keeps _ _ _ _ _ _ E)).
Defined.

Lemma delete_without_budget_witness :
  (-1 <= 0)%Z
  /\ deleteByMongoId (failing_times 5 Sample.e404) 0 Sample.resolved
       Sample.doc1 (fun err => [Settle err None]) (-1)
     = [delete_call Sample.resolved Sample.doc1;
        Settle (Some Sample.e404) None].
Proof.
  split; [lia|].
  exact (delete_without_budget (failing_times 5 Sample.e404) 0
           Sample.resolved Sample.doc1 (fun err => [Settle err None]) (-1)
           ltac:(lia)).
Defined.

Lemma refresh_then_save_witness :
  exists calls w1 w2,
    refresh Sample.lcFirst Sample.generateMapping (None, None) Sample.book
      Sample.callback (Sample.world Sample.client_only) = (Ok calls, w1)
    /\ Js.truthy_string (o_index (options w1)) = true
    /\ Js.truthy_string (o_type (options w1)) = true
    /\ postSave Sample.lcFirst Sample.generateMapping Sample.serialize
         (None, Some "created"%string) (Some Sample.doc1) w1 = (Ok tt, w2).
Proof.
  assert (refresh Sample.lcFirst Sample.generateMapping (None, None)
            Sample.book Sample.callback (Sample.world Sample.client_only)
          = (Ok _, _)) as E by (vm_compute; reflexivity).
  pose proof (refresh_then_save Sample.lcFirst Sample.generateMapping
                Sample.serialize _ _ _ _ _ _ E eq_refl eq_refl)
    as (_ & _ & H).
  destruct (H (None, Some "created"%string) Sample.doc1) as (w2 & Hs & _).
  eexists _, _, w2. split; [exact E|]. split; [reflexivity|].
  split; [reflexivity | exact Hs].
Defined.

Lemma hooks_notify_when_resolved_witness :
  Js.truthy_string (o_index (options (Sample.world Sample.resolved))) = true
  /\ exists w',
       postSave Sample.lcFirst Sample.generateMapping Sample.serialize
         (Some Sample.e503, None) (Some Sample.doc1)
         (Sample.world Sample.resolved) = (Ok tt, w')
       /\ log w'
          = [ClientIndex (Some 0) (Some "books"%string) (Some "book"%string)
               "1" "{title: 'a'}";
             DocEmit Sample.doc1 "es-indexed" (Some Sample.e503) None].
Proof.
  split; [reflexivity|].
  destruct (proj1 (hooks_notify_when_resolved Sample.lcFirst
                     Sample.generateMapping Sample.serialize
                     (Sample.world Sample.resolved) Sample.doc1
                     eq_refl eq_refl ltac:(eexists; reflexivity)
                     ltac:(eexists; reflexivity))
              (Some Sample.e503, None)) as (w' & Hs & Hl).
  exists w'. split; [exact Hs|]. vm_compute in Hl. exact Hl.
Defined.

Lemma pipeline_backpressure_witness :
  (0 < 2)%nat
  /\ (ready_events
        (run Sample.serialize sending_queue (fun _ => None) (None, None) 2
           (system_start Sample.resolved
              (Bulker_new (Some {| batch := Some (Z.of_nat 2) |}))
              [Sample.doc1; Sample.doc2; Sample.doc1])) <= 1)%nat.
Proof.
  split; [lia|].
  exact (proj2 (proj2 (proj2
           (pipeline_backpressure Sample.serialize (fun _ => None)
              (None, None) 2 Sample.resolved
              [Sample.doc1; Sample.doc2; Sample.doc1] 2 ltac:(lia))))).
Defined.

Lemma pipeline_notifications_witness :
  (0 < 2)%nat
  /\ exists fuel,
       sent_total
         (notes
            (acts
               (ctl (run Sample.serialize sending_queue (fun _ => None)
                       (None, None) fuel
                       (system_start Sample.resolved
                          (Bulker_new (Some {| batch := Some (Z.of_nat 2) |}))
                          [Sample.doc1; Sample.doc2; Sample.doc1])))))
       = 3.
Proof.
  split; [lia|].
  destruct (pipeline_notifications Sample.serialize (fun _ => None)
              (None, None) 2 Sample.resolved
              [Sample.doc1; Sample.doc2; Sample.doc1] ltac:(lia))
    as (fuel & _ & _ & H).
  exists fuel. exact (H (fun _ => eq_refl)).
Defined.

Lemma createMapping_calls_witness :
  exists calls w',
    createMapping Sample.lcFirst Sample.generateMapping (None, false) None
      (None, Some "acknowledged"%string) Sample.book
      [Sample.settings; Sample.callback] (Sample.world Sample.client_only)
    = (Ok calls, w')
    /\ count_calls is_put calls = 1
    /\ count_calls is_create calls = 1
    /\ count_calls is_defer calls = 1.
Proof.
  assert (createMapping Sample.lcFirst Sample.generateMapping (None, false)
            None (None, Some "acknowledged"%string) Sample.book
            [Sample.settings; Sample.callback]
            (Sample.world Sample.client_only) = (Ok _, _)) as E
      by (vm_compute; reflexivity).
  pose proof (createMapping_calls _ _ _ _ _ _ _ _ _ _ E)
    as (Hput & Hcreate & Hdefer & _).
  eexists _, _. split; [exact E|]. split; [exact Hput|].
  split; [exact Hcreate | exact Hdefer].
Defined.

Lemma createMapping_single_argument_witness :
  (length [Sample.settings] < 2)%nat
  /\ exists calls w',
       createMapping Sample.lcFirst Sample.generateMapping (None, false) None
         (None, Some "acknowledged"%string) Sample.book [Sample.settings]
         (Sample.world Sample.client_only)
       = (Ok calls, w')
       /\ forall index body, In (IndicesCreate index body) calls ->
                             body = VObject empty_object.
Proof.
  split; [simpl; lia|].
  assert (createMapping Sample.lcFirst Sample.generateMapping (None, false)
            None (None, Some "acknowledged"%string) Sample.book
            [Sample.settings] (Sample.world Sample.client_only)
          = (Ok _, _)) as E by (vm_compute; reflexivity).
  eexists _, _. split; [exact E|].
  exact (proj1 (createMapping_single_argument _ _ _ _ _ _
                  [Sample.settings] _ _ _
                  ltac:(simpl; lia) E)).
Defined.

Lemma search_query_forms_witness :
  exists calls w',
    search Sample.lcFirst Sample.generateMapping (None, Some "hits"%string)
      Sample.book (VString "title:a") Sample.callback VUndefined
      (Sample.world Sample.client_only) = (Ok calls, w')
    /\ exists params,
         calls = [ClientSearch params;
                  DeferCallback Sample.callback None (Some "hits"%string)]
         /\ sp_q params = Some "title:a"%string
         /\ sp_body params = None.
Proof.
  assert (search Sample.lcFirst Sample.generateMapping
            (None, Some "hits"%string) Sample.book (VString "title:a")
            Sample.callback VUndefined (Sample.world Sample.client_only)
          = (Ok _, _)) as E by (vm_compute; reflexivity).
  destruct (search_query_forms _ _ _ _ _ _ _ _ _ _ E)
    as (params & Hc & _ & _ & Hq & Hb).
  eexists _, _. split; [exact E|]. exists params.
  split; [exact Hc|]. split; [exact Hq | exact Hb].
Defined.

Lemma esSynchronize_arguments_witness :
  exists cb eo b w',
    esSynchronize Sample.lcFirst Sample.generateMapping Sample.book
      (VObject {| obj_json := "{author: 'x'}"; obj_query := false |})
      Sample.callback (VObject empty_object) VUndefined
      (Sample.world Sample.client_only) = (Ok (cb, eo, b), w')
    /\ cb = Sample.callback
    /\ log w' = [Find "{author: 'x'}" None None 50; BulkerOn b OnError;
                 BulkerOn b OnSent].
Proof.
  assert (esSynchronize Sample.lcFirst Sample.generateMapping Sample.book
            (VObject {| obj_json := "{author: 'x'}"; obj_query := false |})
            Sample.callback (VObject empty_object) VUndefined
            (Sample.world Sample.client_only) = (Ok (_, _, _), _)) as E
      by (vm_compute; reflexivity).
  destruct (esSynchronize_arguments _ _ _ _ _ _ _ _ _ _ _ _ E)
    as (c & p & o & Hl & _ & H).
  destruct (H eq_refl) as (Hc & Hp & _).
  destruct (Hp eq_refl) as (Hcb & Hpn & Hon).
  eexists _, _, _, _. split; [exact E|]. split; [exact Hcb|].
  rewrite Hl, Hc, Hpn, Hon. reflexivity.
Defined.


Lemma closed_never_resumes_witness :
  streamClosed
    (exec (deliver (BQ := sending_queue) Sample.serialize StreamClose)
       (sync_start Sample.resolved (Bulker_new None))) = true
  /\ resumes
       (acts (deliver_all (BQ := sending_queue) Sample.serialize
                [BulkerSent 1; Refreshed None None]
                (exec (deliver (BQ := sending_queue) Sample.serialize
                         StreamClose)
                   (sync_start Sample.resolved (Bulker_new None)))))
     = 0.
Proof.
  split; [reflexivity|].
  pose proof (proj1 (closed_never_resumes Sample.serialize
                       (BQ := sending_queue)
                       [BulkerSent 1; Refreshed None None]
                       (exec (deliver (BQ := sending_queue) Sample.serialize
                                StreamClose)
                          (sync_start Sample.resolved (Bulker_new None)))
                       eq_refl eq_refl)) as H.
  vm_compute in H. vm_compute. exact H.
Defined.
